(** * Caliper: the roctracer and umpire services

    A shallow embedding of
      - src/services/roctracer/RocTracer.cpp   (class RocTracerService)
      - src/services/umpire/UmpireStatistics.cpp (class UmpireService)
    together with the part of the Caliper runtime the two services call.

    Conventions.
      - C++ unsigned integers are [Z] values; arithmetic on them is
        written with its wrap-around ([wrap32] for [unsigned],
        [wrap64] for [uint64_t]).
      - A [cali::Node*] is an [option Node]; [None] is [nullptr].
        Context-tree nodes are immutable once created, so a node
        reference is represented by the node value itself (which
        carries its parent chain).
      - [std::map<uint64_t, cali::Node*>] is a [gmap Z (option Node)].
      - Member functions take the object they act on as an explicit
        argument and return the updated object.  A [std::lock_guard]
        makes the body of push_correlation / pop_correlation atomic;
        in this sequential embedding each call is one step. *)

From stdpp Require Import base numbers list strings gmap.

Open Scope Z_scope.

Set Warnings "-register-all".

(** ** Fixed-width unsigned arithmetic *)

Module Unsigned.

Definition UINT_MAX : Z := 2 ^ 32 - 1.
Definition UINT64_MAX : Z := 2 ^ 64 - 1.

(** value of an [unsigned] expression after reduction modulo 2^32 *)
Definition wrap32 (z : Z) : Z := z mod 2 ^ 32.

(** value of a [uint64_t] expression after reduction modulo 2^64 *)
Definition wrap64 (z : Z) : Z := z mod 2 ^ 64.

End Unsigned.

Import Unsigned.

(** ** The Caliper runtime used by the services

    caliper/Caliper.h, caliper/SnapshotRecord.h, caliper/common/Attribute.h,
    caliper/common/Log.h and caliper/common/RuntimeConfig.h are included
    by both services but are not part of the sources at hand.  What the
    specification describes of them (sections 3 and 4: attributes, the
    context tree, snapshot records and builders, the event bus) is
    modelled from its words.  Logging and configuration, which the
    specification leaves out of scope (section 1), are kept to what the
    two services do with them: lines written at a verbosity level, and
    boolean options with the defaults of the services' tables. *)

Module Cali.

Inductive cali_attr_type :=
| CALI_TYPE_INV | CALI_TYPE_STRING | CALI_TYPE_UINT | CALI_TYPE_INT
| CALI_TYPE_DOUBLE | CALI_TYPE_BOOL.

(** the property flags the two services pass to create_attribute; a
    flag word [A | B] is the list [[A; B]] *)
Inductive cali_attr_properties :=
| CALI_ATTR_DEFAULT | CALI_ATTR_ASVALUE | CALI_ATTR_SKIP_EVENTS
| CALI_ATTR_NESTED.

Definition CALI_INV_ID : Z := UINT64_MAX.

(** [Variant()], [Variant(const char* )], [Variant(uint64_t)] /
    [cali_make_variant_from_uint], [Variant(bool)] *)
Inductive Variant :=
| VEmpty
| VString (s : string)
| VUint (u : Z)
| VBool (b : bool).

Definition cali_make_variant_from_uint (u : Z) : Variant := VUint u.

(** Modelled from the spec: the Attribute descriptor of
    caliper/common/Attribute.h (spec 3, "Attribute":
    id, name, type, flags, metadata). *)
Inductive Attribute := mkAttribute {
  attr_id    : Z;
  attr_name  : string;
  attr_type  : cali_attr_type;
  attr_flags : list cali_attr_properties;
  attr_meta  : list (Attribute * Variant)
}.

(** [Attribute::invalid] *)
Definition Attribute_invalid : Attribute :=
  mkAttribute CALI_INV_ID "" CALI_TYPE_INV [] [].

(** Modelled from the spec: the context-tree node of caliper/common/Node.h
    (spec 3, "Context-Tree Node": id, attribute, value, parent; the
    root has a null parent).  The constructor call
    [Node(CALI_INV_ID, CALI_INV_ID, Variant())] in UmpireStatistics.cpp
    fixes the argument order: node id, attribute id, value. *)
Inductive Node := mkNode {
  node_id     : Z;
  node_attr   : Z;
  node_data   : Variant;
  node_parent : option Node
}.

(** Modelled from the spec: a Snapshot Record as handed to subscribers
    (spec 3, "Snapshot Record": an ordered sequence of
    (Attribute, Value) fields and an inherited branch, Node-ref or
    null).  [SnapshotView()] is the empty view. *)
Record SnapshotView := mkSnapshotView {
  sv_fields : list (Attribute * Variant);
  sv_branch : option Node
}.

Definition SnapshotView_empty : SnapshotView := mkSnapshotView [] None.

(** Modelled from the spec: the Snapshot Builder of
    caliper/SnapshotRecord.h (spec 4.4): a fixed-capacity accumulator;
    a field appended at full capacity is dropped and counted. *)
Record SnapshotBuilder := mkSnapshotBuilder {
  sb_capacity : nat;
  sb_fields   : list (Attribute * Variant);
  sb_branch   : option Node;
  sb_skipped  : nat
}.

(** Modelled from the spec: [FixedSizeSnapshotRecord<N> rec;
    rec.builder()], an empty builder of capacity [N] (spec 3: "fixed
    maximum field capacity"). *)
Definition FixedSizeSnapshotRecord (N : nat) : SnapshotBuilder :=
  mkSnapshotBuilder N [] None 0.

(** Modelled from the spec: [SnapshotBuilder::append(attribute, value)]
    (spec 4.4: "adds a field, fails with CapacityExceeded (logged,
    field dropped) if the fixed capacity is reached"). *)
Definition append (a : Attribute) (v : Variant) (b : SnapshotBuilder)
  : SnapshotBuilder :=
  if decide (length (sb_fields b) < sb_capacity b)%nat
  then mkSnapshotBuilder (sb_capacity b) (sb_fields b ++ [(a, v)])
                         (sb_branch b) (sb_skipped b)
  else mkSnapshotBuilder (sb_capacity b) (sb_fields b)
                         (sb_branch b) (S (sb_skipped b)).

(** Modelled from the spec: [append(context-branch)] (spec 4.4:
    "merges an inherited Node-ref chain into the record's context").
    The record has one branch slot: a null chain adds nothing, a chain
    appended to a record without a branch becomes its branch, and a
    record that already has a branch keeps it. *)
Definition append_branch (p : option Node) (b : SnapshotBuilder)
  : SnapshotBuilder :=
  match sb_branch b with
  | Some _ => b
  | None => mkSnapshotBuilder (sb_capacity b) (sb_fields b) p (sb_skipped b)
  end.

Definition append_fields (fs : list (Attribute * Variant))
    (b : SnapshotBuilder) : SnapshotBuilder :=
  fold_left (λ acc f, append (fst f) (snd f) acc) fs b.

(** Modelled from the spec: [SnapshotBuilder::append(SnapshotView)],
    the fields of the view one by one, then its branch. *)
Definition append_view (v : SnapshotView) (b : SnapshotBuilder)
  : SnapshotBuilder :=
  append_branch (sv_branch v) (append_fields (sv_fields v) b).

(** Modelled from the spec: [rec.view()] (spec 4.4, [finalize()]: the
    read-only record). *)
Definition view (b : SnapshotBuilder) : SnapshotView :=
  mkSnapshotView (sb_fields b) (sb_branch b).

(** Modelled from the spec: [Caliper::make_record(n, attr, data,
    builder, parent)] (spec 4.6: "build a Snapshot Record combining
    decoded fields + matched context"): the first [n] (attribute,
    value) pairs become fields, [parent] the inherited branch. *)
Definition make_record (n : nat) (attr : list Attribute)
    (data : list Variant) (b : SnapshotBuilder) (parent : option Node)
  : SnapshotBuilder :=
  append_branch parent (append_fields (take n (zip attr data)) b).

(** Modelled from the spec: the [Entry] that [Caliper::get] returns, a
    reference to a context-tree node (spec 3, Node-ref) or nothing. *)
Inductive Entry :=
| EntryEmpty
| EntryNode (n : Node).

Definition is_reference (e : Entry) : bool :=
  match e with EntryNode _ => true | EntryEmpty => false end.

Definition entry_node (e : Entry) : option Node :=
  match e with EntryNode n => Some n | EntryEmpty => None end.

(** one item streamed into a log line: [<< text] or [<< number] *)
Inductive LogItem :=
| LStr (s : string)
| LNum (z : Z).

(** the events of a channel the two services connect to or fire *)
Inductive event :=
| post_init_evt | pre_flush_evt | pre_finish_evt | finish_evt
| snapshot_evt.

#[global] Instance event_eq_dec : EqDecision event.
Proof. solve_decision. Defined.

(** Modelled from the spec: a channel (glossary: "an independently
    configured instrumentation session"); [chn_config] holds the
    boolean settings given for the channel, keyed by
    "service.option". *)
Record Channel := mkChannel {
  chn_id     : Z;
  chn_name   : string;
  chn_config : gmap string bool
}.

(** an entry of a [ConfigSet::Entry] table: key, type, default value,
    short and long description *)
Record ConfigEntry := mkConfigEntry {
  cfg_key     : string;
  cfg_type    : cali_attr_type;
  cfg_default : string;
  cfg_descr   : string;
  cfg_long    : string
}.

(** reading of a boolean default as written in the tables *)
Definition to_bool (s : string) : bool := bool_decide (s = "true").

(** [channel->config().init(name, table).get(key).to_bool()]: the
    channel's setting when there is one, the table's default
    otherwise *)
Definition config_get_bool (ch : Channel) (name : string)
    (table : list ConfigEntry) (key : string) : bool :=
  match chn_config ch !! (name +:+ "." +:+ key) with
  | Some b => b
  | None =>
      match find (λ e, bool_decide (cfg_key e = key)) table with
      | Some e => to_bool (cfg_default e)
      | None => false
      end
  end.

(** Modelled from the spec: the state of the Caliper runtime.
    - [registry]: the Attribute Registry (spec 4.1), by name;
    - [thread_ctx]: the per-thread current node (spec 3, "Per-thread
      Context"); a thread without entry is at the root;
    - [connections]: the Event Dispatch Bus (spec 4.5), callbacks per
      channel and event in registration order, each named by the
      service function it invokes;
    - [processed]: the records handed to [process_snapshot], per
      channel, in dispatch order (trigger info, record);
    - [verbosity], [log]: [Log::verbosity()] and the lines written. *)
Record Caliper := mkCaliper {
  registry     : gmap string Attribute;
  next_attr_id : Z;
  next_node_id : Z;
  thread_ctx   : gmap Z Node;
  connections  : list (Z * event * string);
  processed    : list (Z * SnapshotView * SnapshotView);
  verbosity    : Z;
  log          : list (list LogItem)
}.

Definition set_registry (r : gmap string Attribute) (n : Z) (c : Caliper) :=
  mkCaliper r n (next_node_id c) (thread_ctx c) (connections c)
            (processed c) (verbosity c) (log c).

Definition set_next_node_id (n : Z) (c : Caliper) :=
  mkCaliper (registry c) (next_attr_id c) n (thread_ctx c) (connections c)
            (processed c) (verbosity c) (log c).

Definition set_thread_ctx (t : gmap Z Node) (c : Caliper) :=
  mkCaliper (registry c) (next_attr_id c) (next_node_id c) t (connections c)
            (processed c) (verbosity c) (log c).

Definition set_connections (l : list (Z * event * string)) (c : Caliper) :=
  mkCaliper (registry c) (next_attr_id c) (next_node_id c) (thread_ctx c) l
            (processed c) (verbosity c) (log c).

Definition set_processed (l : list (Z * SnapshotView * SnapshotView))
    (c : Caliper) :=
  mkCaliper (registry c) (next_attr_id c) (next_node_id c) (thread_ctx c)
            (connections c) l (verbosity c) (log c).

Definition set_log (l : list (list LogItem)) (c : Caliper) :=
  mkCaliper (registry c) (next_attr_id c) (next_node_id c) (thread_ctx c)
            (connections c) (processed c) (verbosity c) l.

(** [Log(level).stream() << item << ...]: written when the verbosity
    is at least [level] *)
Definition Log (level : Z) (line : list LogItem) (c : Caliper) : Caliper :=
  if decide (level ≤ verbosity c) then set_log (log c ++ [line]) c else c.

(** Modelled from the spec: [Caliper::get_attribute(name)], the
    registered attribute or [Attribute::invalid]. *)
Definition get_attribute (name : string) (c : Caliper) : Attribute :=
  default Attribute_invalid (registry c !! name).

(** Modelled from the spec: [Caliper::create_attribute] (spec 4.1,
    [create_or_get]: "a second call with the same name returns the
    previously created attribute regardless of whether type/flags
    differ"). *)
Definition create_attribute (name : string) (type : cali_attr_type)
    (flags : list cali_attr_properties)
    (meta : list (Attribute * Variant)) (c : Caliper)
  : Attribute * Caliper :=
  match registry c !! name with
  | Some a => (a, c)
  | None =>
      let a := mkAttribute (next_attr_id c) name type flags meta in
      (a, set_registry (<[name := a]> (registry c)) (next_attr_id c + 1) c)
  end.

(** Modelled from the spec: [Caliper::begin(attr, value)] on thread
    [tid] (spec 4.2: "creates a child of the thread's current node and
    makes it current"). *)
Definition begin (tid : Z) (a : Attribute) (v : Variant) (c : Caliper)
  : Caliper :=
  let n := mkNode (next_node_id c) (attr_id a) v (thread_ctx c !! tid) in
  set_thread_ctx (<[tid := n]> (thread_ctx c))
                 (set_next_node_id (next_node_id c + 1) c).

(** Modelled from the spec: [Caliper::end(attr)] on thread [tid]
    (spec 4.2: "restores the prior current node, failing with a
    ScopeMismatchError if the attribute being ended is not the top of
    that thread's logical nesting"); the failure is reported on the
    log and leaves the context as it is. *)
Definition end_ (tid : Z) (a : Attribute) (c : Caliper) : Caliper :=
  match thread_ctx c !! tid with
  | Some n =>
      if decide (node_attr n = attr_id a)
      then match node_parent n with
           | Some p => set_thread_ctx (<[tid := p]> (thread_ctx c)) c
           | None => set_thread_ctx (delete tid (thread_ctx c)) c
           end
      else Log 0 [LStr "ScopeMismatchError: "; LStr (attr_name a)] c
  | None => Log 0 [LStr "ScopeMismatchError: "; LStr (attr_name a)] c
  end.

(** nearest node with attribute [a] on the path from [n] to the root *)
Fixpoint find_node_with_attribute (a : Z) (n : Node) : option Node :=
  match n with
  | mkNode _ na _ p =>
      if decide (na = a) then Some n
      else match p with
           | Some q => find_node_with_attribute a q
           | None => None
           end
  end.

(** Modelled from the spec: [Caliper::get(attr)] on thread [tid]: the
    entry for [attr] in the thread's current context (spec 4.2,
    [current]), a reference to the innermost open node of that
    attribute, or the empty entry. *)
Definition get (tid : Z) (a : Attribute) (c : Caliper) : Entry :=
  match thread_ctx c !! tid with
  | Some n =>
      match find_node_with_attribute (attr_id a) n with
      | Some m => EntryNode m
      | None => EntryEmpty
      end
  | None => EntryEmpty
  end.

(** Modelled from the spec: [Caliper::make_tree_entry(attr, value,
    parent)]: a new child of [parent] in the context tree (spec 3:
    the tree is "only extended by adding children"); no thread
    context changes. *)
Definition make_tree_entry (a : Attribute) (v : Variant)
    (parent : option Node) (c : Caliper) : Node * Caliper :=
  (mkNode (next_node_id c) (attr_id a) v parent,
   set_next_node_id (next_node_id c + 1) c).

(** Modelled from the spec: [channel->events().process_snapshot(c,
    channel, info, rec)] (spec 4.5: the record is handed to the
    subscribers of the channel, synchronously); the dispatch is
    recorded in [processed]. *)
Definition process_snapshot (ch : Channel) (info rec : SnapshotView)
    (c : Caliper) : Caliper :=
  set_processed (processed c ++ [(chn_id ch, info, rec)]) c.

(** Modelled from the spec: [channel->events().<evt>.connect(callback)]
    (spec 4.5, [subscribe]: callbacks are kept in registration order). *)
Definition connect (ch : Channel) (e : event) (callback : string)
    (c : Caliper) : Caliper :=
  set_connections (connections c ++ [(chn_id ch, e, callback)]) c.

End Cali.

Import Cali.

(** ** src/services/roctracer/RocTracer.cpp *)

Module RocTracer.

(** What the service takes from outside the sources at hand: the
    constants and accessors of the vendor headers (roctracer.h,
    roctracer_hip.h, roctracer_hcc.h, roctracer_ext.h), and the
    helpers of ../../common/util/demangle.h and
    caliper/common/c-util/unitfmt.h. *)
Class Externals := {
  ACTIVITY_DOMAIN_HIP_API : Z;
  ACTIVITY_DOMAIN_HIP_OPS : Z;
  ACTIVITY_DOMAIN_HCC_OPS : Z;
  ACTIVITY_API_PHASE_ENTER : Z;
  HIP_OP_ID_COPY : Z;
  HIP_API_ID___hipPushCallConfiguration : Z;
  HIP_API_ID___hipPopCallConfiguration : Z;
  HIP_API_ID_hipLaunchKernel : Z;
  HIP_API_ID_hipExtLaunchKernel : Z;
  HIP_API_ID_hipModuleLaunchKernel : Z;
  HIP_API_ID_hipExtModuleLaunchKernel : Z;
  HIP_API_ID_hipHccModuleLaunchKernel : Z;
  (** [roctracer_op_string(domain, op, kind)] *)
  roctracer_op_string : Z → Z → Z → string;
  (** [hipKernelNameRefByPtr(function_address, stream)] *)
  hipKernelNameRefByPtr : Z → Z → string;
  (** [hipKernelNameRef(f)] *)
  hipKernelNameRef : Z → string;
  (** [util::demangle] *)
  demangle : string → string;
  (** [unitfmt(n, unitfmt_bytes)], value and unit symbol as printed *)
  unitfmt_bytes : Z → string
}.

(** the members of [hip_api_data_t] the callback reads *)
Record hip_api_data_t := mk_hip_api_data {
  phase : Z;
  api_correlation_id : Z;
  args_hipLaunchKernel_function_address : Z;
  args_hipLaunchKernel_stream : Z;
  args_hipExtModuleLaunchKernel_f : Z
}.

(** the members of [roctracer_record_t] flush_record reads *)
Record roctracer_record_t := mk_roctracer_record {
  domain : Z;
  op : Z;
  kind : Z;
  begin_ns : Z;
  end_ns : Z;
  device_id : Z;
  queue_id : Z;
  bytes : Z;
  correlation_id : Z
}.

(** An activity buffer [begin, end): the records the source's accessor
    links, in its order, each with the status [roctracer_next_record]
    returns on it (0: the cursor moves to the following record, or to
    [end] after the last one).  The cursor [record] of
    flush_activity_records is a suffix of this list; [record <
    end_record] holds while the suffix is not empty, and [begin = end]
    is the empty list. *)
Definition activity_buffer : Type := list (roctracer_record_t * Z).

Record RocTracerService := mkRocTracerService {
  m_api_attr : Attribute;
  m_activity_start_attr : Attribute;
  m_activity_end_attr : Attribute;
  m_activity_duration_attr : Attribute;
  m_activity_name_attr : Attribute;
  m_activity_queue_id_attr : Attribute;
  m_activity_device_id_attr : Attribute;
  m_activity_bytes_attr : Attribute;
  m_kernel_name_attr : Attribute;
  m_flush_region_attr : Attribute;
  m_num_records : Z;
  m_num_flushed : Z;
  m_num_flushes : Z;
  m_num_correlations_stored : Z;
  m_num_correlations_found : Z;
  m_num_correlations_missed : Z;
  m_flushed_chunks : list (Z * Z);
  m_correlation_map : gmap Z (option Node);
  m_roctracer_pool : option Z;
  m_channel : Channel;
  m_enable_tracing : bool;
  m_record_names : bool
}.

(** the members that change after construction, all at once *)
Definition update (s : RocTracerService)
    (records flushed flushes stored found missed : Z)
    (map : gmap Z (option Node)) : RocTracerService :=
  {| m_api_attr := m_api_attr s;
     m_activity_start_attr := m_activity_start_attr s;
     m_activity_end_attr := m_activity_end_attr s;
     m_activity_duration_attr := m_activity_duration_attr s;
     m_activity_name_attr := m_activity_name_attr s;
     m_activity_queue_id_attr := m_activity_queue_id_attr s;
     m_activity_device_id_attr := m_activity_device_id_attr s;
     m_activity_bytes_attr := m_activity_bytes_attr s;
     m_kernel_name_attr := m_kernel_name_attr s;
     m_flush_region_attr := m_flush_region_attr s;
     m_num_records := records;
     m_num_flushed := flushed;
     m_num_flushes := flushes;
     m_num_correlations_stored := stored;
     m_num_correlations_found := found;
     m_num_correlations_missed := missed;
     m_flushed_chunks := m_flushed_chunks s;
     m_correlation_map := map;
     m_roctracer_pool := m_roctracer_pool s;
     m_channel := m_channel s;
     m_enable_tracing := m_enable_tracing s;
     m_record_names := m_record_names s |}.

Definition set_correlation_map (m : gmap Z (option Node))
    (s : RocTracerService) : RocTracerService :=
  update s (m_num_records s) (m_num_flushed s) (m_num_flushes s)
         (m_num_correlations_stored s) (m_num_correlations_found s)
         (m_num_correlations_missed s) m.

Definition set_num_correlations_stored (n : Z) (s : RocTracerService) :=
  update s (m_num_records s) (m_num_flushed s) (m_num_flushes s)
         n (m_num_correlations_found s) (m_num_correlations_missed s)
         (m_correlation_map s).

Definition set_num_correlations_found (n : Z) (s : RocTracerService) :=
  update s (m_num_records s) (m_num_flushed s) (m_num_flushes s)
         (m_num_correlations_stored s) n (m_num_correlations_missed s)
         (m_correlation_map s).

Definition set_num_correlations_missed (n : Z) (s : RocTracerService) :=
  update s (m_num_records s) (m_num_flushed s) (m_num_flushes s)
         (m_num_correlations_stored s) (m_num_correlations_found s) n
         (m_correlation_map s).

(** the three assignments at the end of flush_activity_records *)
Definition set_flush_counters (records flushed flushes : Z)
    (s : RocTracerService) :=
  update s records flushed flushes
         (m_num_correlations_stored s) (m_num_correlations_found s)
         (m_num_correlations_missed s) (m_correlation_map s).

(** [RocTracerService::s_configdata] *)
Definition s_configdata : list ConfigEntry :=
  [ mkConfigEntry "trace_activities" CALI_TYPE_BOOL "true"
      "Enable ROCm activity tracing"
      "Enable ROCm activity tracing";
    mkConfigEntry "record_kernel_names" CALI_TYPE_BOOL "false"
      "Record kernel names when activity tracing is enabled"
      "Record kernel names when activity tracing is enabled" ].

(** *** The correlation store (lines 117-138) *)

(** [m_correlation_map[id] = node] *)
Definition push_correlation (id : Z) (node : option Node)
    (s : RocTracerService) : RocTracerService :=
  set_correlation_map (<[id := node]> (m_correlation_map s)) s.

(** [find], and on a hit [ret = it->second; erase(it)] *)
Definition pop_correlation (id : Z) (s : RocTracerService)
  : option Node * RocTracerService :=
  match m_correlation_map s !! id with
  | Some node => (node, set_correlation_map (delete id (m_correlation_map s)) s)
  | None => (None, s)
  end.

(** a store or a take, for runs of operations on the correlation map *)
Inductive correlation_op :=
| Store (id : Z) (node : option Node)
| Take (id : Z).

Definition op_id (o : correlation_op) : Z :=
  match o with Store id _ => id | Take id => id end.

Definition run_op (o : correlation_op) (s : RocTracerService)
  : RocTracerService :=
  match o with
  | Store id node => push_correlation id node s
  | Take id => snd (pop_correlation id s)
  end.

Definition run_ops (os : list correlation_op) (s : RocTracerService)
  : RocTracerService :=
  fold_left (λ acc o, run_op o acc) os s.

(** the entries of the correlation map stored under [id] *)
Definition entries_for (id : Z) (s : RocTracerService)
  : list (Z * option Node) :=
  filter (λ kv, kv.1 = id) (map_to_list (m_correlation_map s)).

Section WithExternals.
Context {ext : Externals}.

(** *** hip_api_callback (lines 140-200) *)

(** the switch on [cid] that fills [kernel] when names are recorded *)
Definition kernel_name (instance : RocTracerService) (cid : Z)
    (data : hip_api_data_t) : string :=
  if m_record_names instance then
    if decide (cid = HIP_API_ID_hipLaunchKernel
               ∨ cid = HIP_API_ID_hipExtLaunchKernel)
    then hipKernelNameRefByPtr
           (args_hipLaunchKernel_function_address data)
           (args_hipLaunchKernel_stream data)
    else if decide (cid = HIP_API_ID_hipModuleLaunchKernel
                    ∨ cid = HIP_API_ID_hipExtModuleLaunchKernel
                    ∨ cid = HIP_API_ID_hipHccModuleLaunchKernel)
    then hipKernelNameRef (args_hipExtModuleLaunchKernel_f data)
    else ""
  else "".

(** [tid] is the thread the vendor runtime calls back on; [Caliper c]
    in the body is the runtime as seen from that thread. *)
Definition hip_api_callback (tid : Z) (domain cid : Z)
    (data : hip_api_data_t) (instance : RocTracerService) (c : Caliper)
  : RocTracerService * Caliper :=
  if decide (cid = HIP_API_ID___hipPushCallConfiguration
             ∨ cid = HIP_API_ID___hipPopCallConfiguration)
  then (instance, c)
  else if decide (phase data = ACTIVITY_API_PHASE_ENTER) then
    let c := begin tid (m_api_attr instance)
               (VString (roctracer_op_string ACTIVITY_DOMAIN_HIP_API cid 0)) c in
    if m_enable_tracing instance then
      let kernel := kernel_name instance cid data in
      let e := get tid (m_api_attr instance) c in
      let node := if is_reference e then entry_node e else None in
      let '(node, c) :=
        if decide (kernel = "") then (node, c)
        else
          let '(n, c) := make_tree_entry (m_kernel_name_attr instance)
                           (VString (demangle kernel)) node c in
          (Some n, c) in
      match node with
      | Some _ =>
          let instance := push_correlation (api_correlation_id data) node instance in
          (set_num_correlations_stored
             (wrap32 (m_num_correlations_stored instance + 1)) instance, c)
      | None => (instance, c)
      end
    else (instance, c)
  else (instance, end_ tid (m_api_attr instance) c).

(** *** flush_record (lines 202-246) *)

(** the test [record->domain == ACTIVITY_DOMAIN_HIP_OPS ||
    record->domain == ACTIVITY_DOMAIN_HCC_OPS] *)
Definition is_activity_record (record : roctracer_record_t) : bool :=
  bool_decide (domain record = ACTIVITY_DOMAIN_HIP_OPS
               ∨ domain record = ACTIVITY_DOMAIN_HCC_OPS).

(** the array [attr] *)
Definition record_attr (s : RocTracerService) : list Attribute :=
  [ m_activity_name_attr s;
    m_activity_start_attr s;
    m_activity_end_attr s;
    m_activity_duration_attr s;
    m_activity_device_id_attr s;
    m_activity_queue_id_attr s;
    m_activity_bytes_attr s ].

(** the array [data] as initialised *)
Definition record_data (record : roctracer_record_t) : list Variant :=
  [ VString (roctracer_op_string (domain record) (op record) (kind record));
    cali_make_variant_from_uint (begin_ns record);
    cali_make_variant_from_uint (end_ns record);
    cali_make_variant_from_uint (wrap64 (end_ns record - begin_ns record));
    cali_make_variant_from_uint (device_id record);
    cali_make_variant_from_uint (queue_id record);
    VEmpty ].

Definition flush_record (record : roctracer_record_t)
    (s : RocTracerService) (c : Caliper)
  : Z * RocTracerService * Caliper :=
  let num_records := 0 in
  if is_activity_record record then
    let attr := record_attr s in
    let data := record_data record in
    let num := 6%nat in
    let '(data, num) :=
      if decide (op record = HIP_OP_ID_COPY)
      then (<[num := cali_make_variant_from_uint (bytes record)]> data, S num)
      else (data, num) in
    let '(parent, s) := pop_correlation (correlation_id record) s in
    let s :=
      match parent with
      | Some _ => set_num_correlations_found
                    (wrap32 (m_num_correlations_found s + 1)) s
      | None => set_num_correlations_missed
                  (wrap32 (m_num_correlations_missed s + 1)) s
      end in
    let snapshot := FixedSizeSnapshotRecord 8 in
    let snapshot := make_record num attr data snapshot parent in
    let c := process_snapshot (m_channel s) SnapshotView_empty
               (view snapshot) c in
    (wrap32 (num_records + 1), s, c)
  else (num_records, s, c).

(** *** flush_activity_records (lines 248-279) *)

(** the while loop: [record] is the head of [buf] *)
Fixpoint flush_loop (buf : activity_buffer) (num_flushed num_records : Z)
    (s : RocTracerService) (c : Caliper)
  : Z * Z * RocTracerService * Caliper :=
  match buf with
  | [] => (num_flushed, num_records, s, c)
  | (record, next_status) :: rest =>
      let '(n, s, c) := flush_record record s c in
      let num_flushed := wrap32 (num_flushed + n) in
      let num_records := wrap32 (num_records + 1) in
      if decide (next_status ≠ 0)
      then (num_flushed, num_records, s, c)
      else flush_loop rest num_flushed num_records s c
  end.

Definition flush_activity_records (tid : Z) (buf : activity_buffer)
    (s : RocTracerService) (c : Caliper) : RocTracerService * Caliper :=
  let c := begin tid (m_flush_region_attr s) (VString "ROCTRACER FLUSH") c in
  let '(num_flushed, num_records, s, c) := flush_loop buf 0 0 s c in
  let c :=
    if decide (2 ≤ verbosity c)
    then Log 2 [ LStr (chn_name (m_channel s));
                 LStr ": roctracer: Flushed ";
                 LNum num_records; LStr " records (";
                 LNum num_flushed; LStr " flushed, ";
                 LNum (wrap32 (num_records - num_flushed));
                 LStr " skipped)." ] c
    else c in
  let s := set_flush_counters
             (wrap32 (m_num_records s + num_records))
             (wrap32 (m_num_flushed s + num_flushed))
             (wrap32 (m_num_flushes s + 1)) s in
  let c := end_ tid (m_flush_region_attr s) c in
  (s, c).

(** *** rt_activity_callback (lines 303-316); [size] is [end - begin] *)
Definition rt_activity_callback (tid : Z) (buf : activity_buffer)
    (size : Z) (instance : RocTracerService) (c : Caliper)
  : RocTracerService * Caliper :=
  let '(instance, c) := flush_activity_records tid buf instance c in
  let c :=
    if decide (2 ≤ verbosity c)
    then Log 2 [ LStr (chn_name (m_channel instance));
                 LStr ": roctracer: processed ";
                 LStr (unitfmt_bytes size); LStr " buffer" ] c
    else c in
  (instance, c).

(** *** finish_cb (lines 407-423) *)
Definition finish_cb (s : RocTracerService) (c : Caliper) (channel : Channel)
  : Caliper :=
  if m_enable_tracing s then
    let c := Log 1 [ LStr (chn_name channel); LStr ": roctracer: ";
                     LNum (m_num_flushes s); LStr " activity flushes, ";
                     LNum (m_num_records s); LStr " records processed, ";
                     LNum (m_num_flushed s); LStr " records flushed." ] c in
    if decide (2 ≤ verbosity c)
    then Log 2 [ LStr (chn_name channel); LStr ": roctracer: ";
                 LNum (m_num_correlations_stored s);
                 LStr " correlations stored; ";
                 LNum (m_num_correlations_found s);
                 LStr " correlations found, ";
                 LNum (m_num_correlations_missed s); LStr " missed." ] c
    else c
  else c.

End WithExternals.

(** *** Construction and registration (lines 72-111, 425-483) *)

Definition create_callback_attributes (s : RocTracerService) (c : Caliper)
  : RocTracerService * Caliper :=
  let subs_attr := get_attribute "subscription_event" c in
  let v_true := VBool true in
  let '(api, c) :=
    create_attribute "rocm.api" CALI_TYPE_STRING [CALI_ATTR_NESTED]
                     [(subs_attr, v_true)] c in
  ({| m_api_attr := api;
      m_activity_start_attr := m_activity_start_attr s;
      m_activity_end_attr := m_activity_end_attr s;
      m_activity_duration_attr := m_activity_duration_attr s;
      m_activity_name_attr := m_activity_name_attr s;
      m_activity_queue_id_attr := m_activity_queue_id_attr s;
      m_activity_device_id_attr := m_activity_device_id_attr s;
      m_activity_bytes_attr := m_activity_bytes_attr s;
      m_kernel_name_attr := m_kernel_name_attr s;
      m_flush_region_attr := m_flush_region_attr s;
      m_num_records := m_num_records s;
      m_num_flushed := m_num_flushed s;
      m_num_flushes := m_num_flushes s;
      m_num_correlations_stored := m_num_correlations_stored s;
      m_num_correlations_found := m_num_correlations_found s;
      m_num_correlations_missed := m_num_correlations_missed s;
      m_flushed_chunks := m_flushed_chunks s;
      m_correlation_map := m_correlation_map s;
      m_roctracer_pool := m_roctracer_pool s;
      m_channel := m_channel s;
      m_enable_tracing := m_enable_tracing s;
      m_record_names := m_record_names s |}, c).

Definition create_activity_attributes (s : RocTracerService) (c : Caliper)
  : RocTracerService * Caliper :=
  let '(start_attr, c) :=
    create_attribute "rocm.starttime" CALI_TYPE_UINT
                     [CALI_ATTR_ASVALUE; CALI_ATTR_SKIP_EVENTS] [] c in
  let '(end_attr, c) :=
    create_attribute "rocm.endtime" CALI_TYPE_UINT
                     [CALI_ATTR_ASVALUE; CALI_ATTR_SKIP_EVENTS] [] c in
  let aggr_attr := get_attribute "class.aggregatable" c in
  let v_true := VBool true in
  let '(duration_attr, c) :=
    create_attribute "rocm.activity.duration" CALI_TYPE_UINT
                     [CALI_ATTR_ASVALUE; CALI_ATTR_SKIP_EVENTS]
                     [(aggr_attr, v_true)] c in
  let '(name_attr, c) :=
    create_attribute "rocm.activity" CALI_TYPE_STRING
                     [CALI_ATTR_SKIP_EVENTS] [] c in
  let '(queue_id_attr, c) :=
    create_attribute "rocm.activity.queue" CALI_TYPE_UINT
                     [CALI_ATTR_SKIP_EVENTS] [] c in
  let '(device_id_attr, c) :=
    create_attribute "rocm.activity.device" CALI_TYPE_UINT
                     [CALI_ATTR_SKIP_EVENTS] [] c in
  let '(bytes_attr, c) :=
    create_attribute "rocm.activity.bytes" CALI_TYPE_UINT
                     [CALI_ATTR_SKIP_EVENTS] [] c in
  let '(kernel_attr, c) :=
    create_attribute "rocm.kernel.name" CALI_TYPE_STRING
                     [CALI_ATTR_SKIP_EVENTS] [] c in
  let '(flush_attr, c) :=
    create_attribute "roctracer.flush" CALI_TYPE_STRING
                     [CALI_ATTR_DEFAULT] [] c in
  ({| m_api_attr := m_api_attr s;
      m_activity_start_attr := start_attr;
      m_activity_end_attr := end_attr;
      m_activity_duration_attr := duration_attr;
      m_activity_name_attr := name_attr;
      m_activity_queue_id_attr := queue_id_attr;
      m_activity_device_id_attr := device_id_attr;
      m_activity_bytes_attr := bytes_attr;
      m_kernel_name_attr := kernel_attr;
      m_flush_region_attr := flush_attr;
      m_num_records := m_num_records s;
      m_num_flushed := m_num_flushed s;
      m_num_flushes := m_num_flushes s;
      m_num_correlations_stored := m_num_correlations_stored s;
      m_num_correlations_found := m_num_correlations_found s;
      m_num_correlations_missed := m_num_correlations_missed s;
      m_flushed_chunks := m_flushed_chunks s;
      m_correlation_map := m_correlation_map s;
      m_roctracer_pool := m_roctracer_pool s;
      m_channel := m_channel s;
      m_enable_tracing := m_enable_tracing s;
      m_record_names := m_record_names s |}, c).

(** the constructor [RocTracerService(Caliper* c, Channel* channel)]:
    member initialisers, configuration, attributes *)
Definition RocTracerService_new (c : Caliper) (channel : Channel)
  : RocTracerService * Caliper :=
  let s :=
    {| m_api_attr := Attribute_invalid;
       m_activity_start_attr := Attribute_invalid;
       m_activity_end_attr := Attribute_invalid;
       m_activity_duration_attr := Attribute_invalid;
       m_activity_name_attr := Attribute_invalid;
       m_activity_queue_id_attr := Attribute_invalid;
       m_activity_device_id_attr := Attribute_invalid;
       m_activity_bytes_attr := Attribute_invalid;
       m_kernel_name_attr := Attribute_invalid;
       m_flush_region_attr := Attribute_invalid;
       m_num_records := 0;
       m_num_flushed := 0;
       m_num_flushes := 0;
       m_num_correlations_stored := 0;
       m_num_correlations_found := 0;
       m_num_correlations_missed := 0;
       m_flushed_chunks := [];
       m_correlation_map := ∅;
       m_roctracer_pool := None;
       m_channel := channel;
       m_enable_tracing :=
         config_get_bool channel "roctracer" s_configdata "trace_activities";
       m_record_names :=
         config_get_bool channel "roctracer" s_configdata "record_kernel_names"
    |} in
  let '(s, c) := create_callback_attributes s c in
  create_activity_attributes s c.

(** [register_roctracer]; the static [s_instance] is passed in and the
    new value returned.  The three lambdas are connected under the name
    of the member function they call on [s_instance]. *)
Definition register_roctracer (s_instance : option RocTracerService)
    (c : Caliper) (channel : Channel)
  : option RocTracerService * Caliper :=
  let c :=
    match s_instance with
    | Some _ =>
        Log 0 [ LStr (chn_name channel);
                LStr ": roctracer service is already active, disabling!" ] c
    | None => c
    end in
  let '(instance, c) := RocTracerService_new c channel in
  let s_instance := Some instance in
  let c := connect channel post_init_evt "RocTracerService::post_init_cb" c in
  let c := connect channel pre_finish_evt "RocTracerService::pre_finish_cb" c in
  let c := connect channel finish_evt "RocTracerService::finish_cb" c in
  let c := Log 1 [ LStr (chn_name channel);
                   LStr ": Registered roctracer service.";
                   LStr " Activity tracing is ";
                   LStr (if m_enable_tracing instance then "on" else "off") ] c in
  (s_instance, c).

(** the lambda connected to [finish_evt]:
    [s_instance->finish_cb(c, channel); delete s_instance;
     s_instance = nullptr;].  The result is [None] when [s_instance] is
    null, where the call dereferences a null pointer. *)
Definition finish_evt_callback (s_instance : option RocTracerService)
    (c : Caliper) (channel : Channel)
  : option (option RocTracerService * Caliper) :=
  match s_instance with
  | Some s => Some (None, finish_cb s c channel)
  | None => None
  end.

End RocTracer.

(** ** src/services/umpire/UmpireStatistics.cpp *)

Module Umpire.

(** the statistics of a [umpire::Allocator] the service reads *)
Record Allocator := mkAllocator {
  getActualSize : Z;
  getCurrentSize : Z;
  getHighWatermark : Z;
  getAllocationCount : Z
}.

(** [umpire::ResourceManager::getInstance()] as seen during one snapshot *)
Record ResourceManager := mkResourceManager {
  getAllocatorNames : list string;
  getAllocator : string → Allocator
}.

Record UmpireService := mkUmpireService {
  m_alloc_name_attr : Attribute;
  m_alloc_current_size_attr : Attribute;
  m_alloc_actual_size_attr : Attribute;
  m_alloc_hwm_attr : Attribute;
  m_alloc_count_attr : Attribute;
  m_total_size_attr : Attribute;
  m_total_count_attr : Attribute;
  m_root_node : Node;
  m_per_allocator_stats : bool
}.

(** [UmpireService::s_configdata] *)
Definition s_configdata : list ConfigEntry :=
  [ mkConfigEntry "per_allocator_statistics" CALI_TYPE_BOOL "true"
      "Include statistics for each Umpire allocator"
      "Include statistics for each Umpire allocator" ].

(** Modelled from the spec: [Caliper::pull_context(channel, scopes,
    builder)] on thread [tid]: the current context of the calling thread
    (spec 4.2, [current]) is merged into the builder (spec 4.4,
    [append(context-branch)]). *)
Definition pull_context (tid : Z) (b : SnapshotBuilder) (c : Caliper)
  : SnapshotBuilder :=
  append_branch (thread_ctx c !! tid) b.

(** the array [attr] of process_allocator *)
Definition allocator_attr (s : UmpireService) : list Attribute :=
  [ m_alloc_name_attr s;
    m_alloc_actual_size_attr s;
    m_alloc_current_size_attr s;
    m_alloc_hwm_attr s;
    m_alloc_count_attr s ].

(** the array [data] of process_allocator; the four statistics are read
    into [uint64_t] variables *)
Definition allocator_data (name : string) (alloc : Allocator) : list Variant :=
  let actual_size := wrap64 (getActualSize alloc) in
  let current_size := wrap64 (getCurrentSize alloc) in
  let hwm := wrap64 (getHighWatermark alloc) in
  let count := wrap64 (getAllocationCount alloc) in
  [ VString name;
    VUint actual_size;
    VUint current_size;
    VUint hwm;
    VUint count ].

(** the five fields of a per-allocator record: name, actual size,
    current size, high watermark, count *)
Definition allocator_fields (s : UmpireService) (name : string)
    (alloc : Allocator) : list (Attribute * Variant) :=
  [ (m_alloc_name_attr s, VString name);
    (m_alloc_actual_size_attr s, VUint (wrap64 (getActualSize alloc)));
    (m_alloc_current_size_attr s, VUint (wrap64 (getCurrentSize alloc)));
    (m_alloc_hwm_attr s, VUint (wrap64 (getHighWatermark alloc)));
    (m_alloc_count_attr s, VUint (wrap64 (getAllocationCount alloc))) ].

(** the record process_allocator builds *)
Definition allocator_record (s : UmpireService) (name : string)
    (alloc : Allocator) (context : SnapshotView) : SnapshotBuilder :=
  let rec := FixedSizeSnapshotRecord 64 in
  let rec := append_view context rec in
  make_record 5 (allocator_attr s) (allocator_data name alloc) rec
              (Some (m_root_node s)).

(** process_allocator (lines 44-70) *)
Definition process_allocator (s : UmpireService) (c : Caliper)
    (channel : Channel) (name : string) (alloc : Allocator)
    (context : SnapshotView) : Caliper :=
  process_snapshot channel SnapshotView_empty
                   (view (allocator_record s name alloc context)) c.

(** the loop over [rm.getAllocatorNames()] in snapshot *)
Fixpoint allocator_loop (s : UmpireService) (rm : ResourceManager)
    (channel : Channel) (context : SnapshotView) (names : list string)
    (total_size total_count : Z) (c : Caliper) : Z * Z * Caliper :=
  match names with
  | [] => (total_size, total_count, c)
  | name :: rest =>
      let alloc := getAllocator rm name in
      let total_size := wrap64 (total_size + getCurrentSize alloc) in
      let total_count := wrap64 (total_count + getAllocationCount alloc) in
      let c :=
        if m_per_allocator_stats s
        then process_allocator s c channel name alloc context
        else c in
      allocator_loop s rm channel context rest total_size total_count c
  end.

(** the context record built at the start of snapshot *)
Definition snapshot_context (s : UmpireService) (tid : Z) (c : Caliper)
    (info : SnapshotView) : SnapshotBuilder :=
  let context := FixedSizeSnapshotRecord 60 in
  if m_per_allocator_stats s
  then pull_context tid (append_view info context) c
  else context.

(** snapshot (lines 72-103); [tid] is the thread taking the snapshot *)
Definition snapshot (s : UmpireService) (rm : ResourceManager) (tid : Z)
    (c : Caliper) (channel : Channel) (info : SnapshotView)
    (snapshot_rec : SnapshotBuilder) : Caliper * SnapshotBuilder :=
  let context := snapshot_context s tid c info in
  let '(total_size, total_count, c) :=
    allocator_loop s rm channel (view context) (getAllocatorNames rm) 0 0 c in
  let snapshot_rec := append (m_total_size_attr s) (VUint total_size) snapshot_rec in
  let snapshot_rec := append (m_total_count_attr s) (VUint total_count) snapshot_rec in
  (c, snapshot_rec).

(** create_attributes (lines 110-146); [class_aggregatable_attr] is the
    extern [cali::class_aggregatable_attr] *)
Definition create_attributes (class_aggregatable_attr : Attribute)
    (m_root_node : Node) (m_per_allocator_stats : bool) (c : Caliper)
  : UmpireService * Caliper :=
  let v_true := VBool true in
  let '(name_attr, c) :=
    create_attribute "umpire.alloc.name" CALI_TYPE_STRING
                     [CALI_ATTR_SKIP_EVENTS] [] c in
  let '(current_size_attr, c) :=
    create_attribute "umpire.alloc.current.size" CALI_TYPE_UINT
                     [CALI_ATTR_ASVALUE; CALI_ATTR_SKIP_EVENTS]
                     [(class_aggregatable_attr, v_true)] c in
  let '(actual_size_attr, c) :=
    create_attribute "umpire.alloc.actual.size" CALI_TYPE_UINT
                     [CALI_ATTR_ASVALUE; CALI_ATTR_SKIP_EVENTS]
                     [(class_aggregatable_attr, v_true)] c in
  let '(hwm_attr, c) :=
    create_attribute "umpire.alloc.highwatermark" CALI_TYPE_UINT
                     [CALI_ATTR_ASVALUE; CALI_ATTR_SKIP_EVENTS]
                     [(class_aggregatable_attr, v_true)] c in
  let '(count_attr, c) :=
    create_attribute "umpire.alloc.count" CALI_TYPE_UINT
                     [CALI_ATTR_ASVALUE; CALI_ATTR_SKIP_EVENTS]
                     [(class_aggregatable_attr, v_true)] c in
  let '(total_size_attr, c) :=
    create_attribute "umpire.total.size" CALI_TYPE_UINT
                     [CALI_ATTR_ASVALUE; CALI_ATTR_SKIP_EVENTS]
                     [(class_aggregatable_attr, v_true)] c in
  let '(total_count_attr, c) :=
    create_attribute "umpire.total.count" CALI_TYPE_UINT
                     [CALI_ATTR_ASVALUE; CALI_ATTR_SKIP_EVENTS]
                     [(class_aggregatable_attr, v_true)] c in
  ({| m_alloc_name_attr := name_attr;
      m_alloc_current_size_attr := current_size_attr;
      m_alloc_actual_size_attr := actual_size_attr;
      m_alloc_hwm_attr := hwm_attr;
      m_alloc_count_attr := count_attr;
      m_total_size_attr := total_size_attr;
      m_total_count_attr := total_count_attr;
      m_root_node := m_root_node;
      m_per_allocator_stats := m_per_allocator_stats |}, c).

(** the constructor [UmpireService(Caliper* c, Channel* channel)] *)
Definition UmpireService_new (class_aggregatable_attr : Attribute)
    (c : Caliper) (channel : Channel) : UmpireService * Caliper :=
  let m_root_node := mkNode CALI_INV_ID CALI_INV_ID VEmpty None in
  let m_per_allocator_stats :=
    config_get_bool channel "umpire" s_configdata "per_allocator_statistics" in
  create_attributes class_aggregatable_attr m_root_node m_per_allocator_stats c.

(** umpire_register (lines 162-177) *)
Definition umpire_register (class_aggregatable_attr : Attribute)
    (c : Caliper) (channel : Channel) : UmpireService * Caliper :=
  let '(instance, c) := UmpireService_new class_aggregatable_attr c channel in
  let c := connect channel snapshot_evt "UmpireService::snapshot" c in
  let c := connect channel finish_evt "UmpireService::finish_cb" c in
  let c := Log 1 [ LStr (chn_name channel); LStr ": Registered umpire service" ] c in
  (instance, c).

(** the sums of the two statistics over all allocators of the manager *)
Definition sum_current_size (rm : ResourceManager) : Z :=
  foldr Z.add 0 (map (λ n, getCurrentSize (getAllocator rm n)) (getAllocatorNames rm)).

Definition sum_allocation_count (rm : ResourceManager) : Z :=
  foldr Z.add 0 (map (λ n, getAllocationCount (getAllocator rm n)) (getAllocatorNames rm)).

End Umpire.

(** ** Notions used to state the properties *)

Module Notions.

Import RocTracer.

(** the six counters hold values of type [unsigned] *)
Definition counters_in_range (s : RocTracerService) : Prop :=
  0 ≤ m_num_records s ≤ UINT_MAX
  ∧ 0 ≤ m_num_flushed s ≤ UINT_MAX
  ∧ 0 ≤ m_num_flushes s ≤ UINT_MAX
  ∧ 0 ≤ m_num_correlations_stored s ≤ UINT_MAX
  ∧ 0 ≤ m_num_correlations_found s ≤ UINT_MAX
  ∧ 0 ≤ m_num_correlations_missed s ≤ UINT_MAX.

(** [s'] differs from [s] at most in the correlation map and the found
    and missed counters *)
Definition correlation_frame (s s' : RocTracerService) : Prop :=
  s' = update s (m_num_records s) (m_num_flushed s) (m_num_flushes s)
         (m_num_correlations_stored s) (m_num_correlations_found s')
         (m_num_correlations_missed s') (m_correlation_map s').

(** what a record adds to the found and missed counters *)
Definition counted (parent : option Node) (s : RocTracerService)
  : RocTracerService :=
  match parent with
  | Some _ => set_num_correlations_found
                (wrap32 (m_num_correlations_found s + 1)) s
  | None => set_num_correlations_missed
              (wrap32 (m_num_correlations_missed s + 1)) s
  end.

(** the entries of [processed] for records dispatched by the service *)
Definition tagged (s : RocTracerService) (vs : list SnapshotView)
  : list (Z * SnapshotView * SnapshotView) :=
  map (λ v, (chn_id (m_channel s), SnapshotView_empty, v)) vs.

(** the line flush_activity_records writes at verbosity 2 and above *)
Definition flush_line (s : RocTracerService) (num_records num_flushed : Z)
  : list LogItem :=
  [ LStr (chn_name (m_channel s));
    LStr ": roctracer: Flushed ";
    LNum num_records; LStr " records (";
    LNum num_flushed; LStr " flushed, ";
    LNum (wrap32 (num_records - num_flushed));
    LStr " skipped)." ].

(** the records the loop of flush_activity_records reaches: all up to
    and including the first one on which the advance fails *)
Fixpoint visited (buf : activity_buffer) : list roctracer_record_t :=
  match buf with
  | [] => []
  | (record, next_status) :: rest =>
      record :: (if decide (next_status ≠ 0) then [] else visited rest)
  end.

(** the records behind a failed advance *)
Fixpoint remaining (buf : activity_buffer) : list roctracer_record_t :=
  match buf with
  | [] => []
  | (record, next_status) :: rest =>
      if decide (next_status ≠ 0) then map fst rest else remaining rest
  end.

(** the snapshots dispatched on a channel between two runtime states *)
Definition dispatched (c c' : Caliper) : list (Z * SnapshotView * SnapshotView) :=
  drop (length (processed c)) (processed c').

Section WithExternals.
Context {ext : Externals}.

(** the fields of the snapshot of an activity record: name, start, end,
    duration, device, queue, and the byte count of a copy *)
Definition record_fields (s : RocTracerService)
    (record : roctracer_record_t) : list (Attribute * Variant) :=
  [ (m_activity_name_attr s,
     VString (roctracer_op_string (domain record) (op record) (kind record)));
    (m_activity_start_attr s, VUint (begin_ns record));
    (m_activity_end_attr s, VUint (end_ns record));
    (m_activity_duration_attr s,
     VUint (wrap64 (end_ns record - begin_ns record)));
    (m_activity_device_id_attr s, VUint (device_id record));
    (m_activity_queue_id_attr s, VUint (queue_id record)) ]
  ++ (if decide (op record = HIP_OP_ID_COPY)
      then [(m_activity_bytes_attr s, VUint (bytes record))]
      else []).

(** the activity records among the visited ones *)
Definition flushed_records (buf : activity_buffer) : list roctracer_record_t :=
  filter (λ r, is_activity_record r = true) (visited buf).

(** the visited records of other domains *)
Definition skipped_records (buf : activity_buffer) : list roctracer_record_t :=
  filter (λ r, is_activity_record r = false) (visited buf).

(** C6 as stated: a flush of a non-empty buffer dispatches one snapshot
    for each record of the buffer *)
Definition one_snapshot_per_record (tid : Z) (buf : activity_buffer)
    (s : RocTracerService) (c : Caliper) : Prop :=
  buf ≠ [] →
  length (dispatched c (flush_activity_records tid buf s c).2) = length buf.

(** the number of skipped records a flush reports: the difference
    [num_records - num_flushed] of the two local counters after the
    loop, as printed on the log line *)
Definition reported_skipped (tid : Z) (buf : activity_buffer)
    (s : RocTracerService) (c : Caliper) : Z :=
  let c := begin tid (m_flush_region_attr s) (VString "ROCTRACER FLUSH") c in
  let '(num_flushed, num_records, _, _) := flush_loop buf 0 0 s c in
  wrap32 (num_records - num_flushed).

(** C7, last part, as stated: the records behind a failed advance are
    among those reported as skipped *)
Definition remainder_reported_as_skipped (tid : Z) (buf : activity_buffer)
    (s : RocTracerService) (c : Caliper) : Prop :=
  Z.of_nat (length (remaining buf)) ≤ reported_skipped tid buf s c.

End WithExternals.

(** what the runtime keeps when attributes are created *)
Definition same_but_registry (c c' : Caliper) : Prop :=
  connections c' = connections c ∧ log c' = log c
  ∧ verbosity c' = verbosity c ∧ processed c' = processed c
  ∧ thread_ctx c' = thread_ctx c.

(** the registry files each attribute under its name *)
Definition registry_wf (c : Caliper) : Prop :=
  ∀ name a, registry c !! name = Some a → attr_name a = name.

(** C9 as stated: registering while an instance is active leaves
    [s_instance] as it is *)
Definition reregistration_guarded (active : RocTracerService)
    (c : Caliper) (channel : Channel) : Prop :=
  (register_roctracer (Some active) c channel).1 = Some active.

End Notions.

(** ** A concrete run *)

Module Scenario.

Import RocTracer.

(** sample values for the vendor constants and accessors; the operation
    with id 7 is the one the scenario names "matmul" *)
Definition hip : Externals :=
  {| ACTIVITY_DOMAIN_HIP_API := 3;
     ACTIVITY_DOMAIN_HIP_OPS := 2;
     ACTIVITY_DOMAIN_HCC_OPS := 2;
     ACTIVITY_API_PHASE_ENTER := 0;
     HIP_OP_ID_COPY := 1;
     HIP_API_ID___hipPushCallConfiguration := 100;
     HIP_API_ID___hipPopCallConfiguration := 101;
     HIP_API_ID_hipLaunchKernel := 102;
     HIP_API_ID_hipExtLaunchKernel := 103;
     HIP_API_ID_hipModuleLaunchKernel := 104;
     HIP_API_ID_hipExtModuleLaunchKernel := 105;
     HIP_API_ID_hipHccModuleLaunchKernel := 106;
     roctracer_op_string := λ domain op kind,
       if decide (domain = 3)
       then (if decide (op = 7) then "matmul" else "hipApiCall")
       else (if decide (op = 1) then "CopyDeviceToHost" else "KernelExecution");
     hipKernelNameRefByPtr := λ _ _, "_Z6matmulPfS_S_";
     hipKernelNameRef := λ _, "_Z6matmulPfS_S_";
     demangle := λ name, name;
     unitfmt_bytes := λ _, "64 B" |}.

(** a runtime without attributes, contexts, connections or output, at
    verbosity 1 *)
Definition runtime0 : Caliper := mkCaliper ∅ 0 0 ∅ [] [] 1 [].

Definition channel_a : Channel := mkChannel 1 "a" ∅.
Definition channel_b : Channel := mkChannel 2 "b" ∅.

(** the service as constructed for [channel_a], and the runtime then *)
Definition service : RocTracerService :=
  (RocTracerService_new runtime0 channel_a).1.

Definition runtime : Caliper :=
  (RocTracerService_new runtime0 channel_a).2.

(** two channels register the service one after the other *)
Definition first_registration : option RocTracerService * Caliper :=
  register_roctracer None runtime0 channel_a.

Definition second_registration : option RocTracerService * Caliper :=
  register_roctracer first_registration.1 first_registration.2 channel_b.

Definition thread_a : Z := 1.
Definition thread_rt : Z := 2.

Definition node_a : Node := mkNode 5 0 (VString "x") None.
Definition node_b : Node := mkNode 6 0 (VString "y") None.

(** enter and exit of operation 7 under correlation id 42 *)
Definition enter_42 : hip_api_data_t := mk_hip_api_data 0 42 0 0 0.
Definition exit_42 : hip_api_data_t := mk_hip_api_data 1 42 0 0 0.

(** completion records: a kernel with id 42 that ran for 500 ns, one
    with id 99, and a record of the HIP API domain *)
Definition record_42 : roctracer_record_t :=
  mk_roctracer_record 2 0 0 1000 1500 0 0 0 42.
Definition record_99 : roctracer_record_t :=
  mk_roctracer_record 2 0 0 2000 2100 0 0 0 99.
Definition record_api : roctracer_record_t :=
  mk_roctracer_record 3 7 0 0 0 0 0 0 7.

Definition allocators : Umpire.ResourceManager :=
  Umpire.mkResourceManager ["HOST"; "DEVICE"]
    (λ name, if decide (name = "HOST")
             then Umpire.mkAllocator 4096 1024 2048 3
             else Umpire.mkAllocator 8192 512 8192 2).

Definition umpire_service : Umpire.UmpireService :=
  (Umpire.UmpireService_new Attribute_invalid runtime0 channel_a).1.

End Scenario.

(** ** RocTracer.cpp: attaching to and detaching from the vendor library
    (lines 113-115, 281-283, 318-405) *)

Module Lifecycle.

Import RocTracer.

(** the calls the service makes into the roctracer library; a pool
    argument is the value of [m_roctracer_pool] passed *)
Inductive vendor_call :=
| roctracer_set_properties (domain : Z)
| roctracer_enable_domain_callback (domain : Z)
| roctracer_open_pool_expl (buffer_size : Z)
| roctracer_default_pool_expl (pool : option Z)
| roctracer_enable_domain_activity_expl (domain : Z) (pool : option Z)
| roctracer_flush_activity_expl (pool : option Z)
| roctracer_disable_domain_activity (domain : Z)
| roctracer_close_pool_expl (pool : option Z)
| roctracer_disable_domain_callback (domain : Z).

#[global] Instance vendor_call_eq_dec : EqDecision vendor_call.
Proof. solve_decision. Defined.

(** The roctracer library as the service sees it: what a call returns
    after the calls made so far, what [roctracer_open_pool_expl] leaves
    in its out-parameter [&m_roctracer_pool] (given the calls so far and
    the old value), and [roctracer_error_string()]. *)
Class Library := {
  roctracer_status : list vendor_call → vendor_call → Z;
  roctracer_pool_out : list vendor_call → option Z → option Z;
  roctracer_error_string : list vendor_call → string
}.

(** what the lifecycle functions act on besides the service: the Caliper
    runtime, the calls made into the library, and the attributes handed
    to [events().subscribe_attribute], per channel *)
Record Env := mkEnv {
  env_caliper : Caliper;
  env_calls : list vendor_call;
  env_subscribed : list (Z * Attribute)
}.

Definition env_log (level : Z) (line : list LogItem) (e : Env) : Env :=
  mkEnv (Log level line (env_caliper e)) (env_calls e) (env_subscribed e).

Definition env_connect (ch : Channel) (ev : event) (callback : string)
    (e : Env) : Env :=
  mkEnv (connect ch ev callback (env_caliper e)) (env_calls e)
        (env_subscribed e).

(** [m_roctracer_pool = pool] *)
Definition set_roctracer_pool (pool : option Z) (s : RocTracerService)
  : RocTracerService :=
  {| m_api_attr := m_api_attr s;
     m_activity_start_attr := m_activity_start_attr s;
     m_activity_end_attr := m_activity_end_attr s;
     m_activity_duration_attr := m_activity_duration_attr s;
     m_activity_name_attr := m_activity_name_attr s;
     m_activity_queue_id_attr := m_activity_queue_id_attr s;
     m_activity_device_id_attr := m_activity_device_id_attr s;
     m_activity_bytes_attr := m_activity_bytes_attr s;
     m_kernel_name_attr := m_kernel_name_attr s;
     m_flush_region_attr := m_flush_region_attr s;
     m_num_records := m_num_records s;
     m_num_flushed := m_num_flushed s;
     m_num_flushes := m_num_flushes s;
     m_num_correlations_stored := m_num_correlations_stored s;
     m_num_correlations_found := m_num_correlations_found s;
     m_num_correlations_missed := m_num_correlations_missed s;
     m_flushed_chunks := m_flushed_chunks s;
     m_correlation_map := m_correlation_map s;
     m_roctracer_pool := pool;
     m_channel := m_channel s;
     m_enable_tracing := m_enable_tracing s;
     m_record_names := m_record_names s |}.

Section WithLibrary.
Context {ext : Externals} {lib : Library}.

(** one call into the library: its return value, and the call recorded *)
Definition vendor (call : vendor_call) (e : Env) : Z * Env :=
  (roctracer_status (env_calls e) call,
   mkEnv (env_caliper e) (env_calls e ++ [call]) (env_subscribed e)).

(** the error line of init_tracing and init_callbacks: channel name,
    the text naming the call, [roctracer_error_string()] *)
Definition error_line (channel : Channel) (what : string) (e : Env)
  : list LogItem :=
  [ LStr (chn_name channel); LStr what;
    LStr (roctracer_error_string (env_calls e)) ].

(** subscribe_attributes (lines 113-115) *)
Definition subscribe_attributes (s : RocTracerService) (channel : Channel)
    (e : Env) : Env :=
  mkEnv (env_caliper e) (env_calls e)
        (env_subscribed e ++ [(chn_id channel, m_api_attr s)]).

(** pre_flush_cb (lines 281-283) *)
Definition pre_flush_cb (s : RocTracerService) (e : Env) : Env :=
  (vendor (roctracer_flush_activity_expl (m_roctracer_pool s)) e).2.

(** init_tracing (lines 318-361); [properties.buffer_size] is 0x1000000 *)
Definition init_tracing (s : RocTracerService) (channel : Channel) (e : Env)
  : RocTracerService * Env :=
  let buffer_size := 16777216 in
  let pool := roctracer_pool_out (env_calls e) (m_roctracer_pool s) in
  let '(status, e) := vendor (roctracer_open_pool_expl buffer_size) e in
  let s := set_roctracer_pool pool s in
  if decide (status ≠ 0)
  then (s, env_log 0 (error_line channel
                        ": roctracer: roctracer_open_pool_expl(): " e) e)
  else
    let '(status, e) :=
      vendor (roctracer_default_pool_expl (m_roctracer_pool s)) e in
    if decide (status ≠ 0)
    then (s, env_log 0 (error_line channel
                          ": roctracer: roctracer_default_pool_expl(): " e) e)
    else
      let '(status, e) :=
        vendor (roctracer_enable_domain_activity_expl
                  ACTIVITY_DOMAIN_HIP_OPS (m_roctracer_pool s)) e in
      if decide (status ≠ 0)
      then (s, env_log 0 (error_line channel
                            ": roctracer: roctracer_enable_activity_expl(): " e) e)
      else
        let '(status, e) :=
          vendor (roctracer_enable_domain_activity_expl
                    ACTIVITY_DOMAIN_HCC_OPS (m_roctracer_pool s)) e in
        if decide (status ≠ 0)
        then (s, env_log 0 (error_line channel
                              ": roctracer: roctracer_enable_activity_expl(): " e) e)
        else
          let e := env_connect channel pre_flush_evt
                     "RocTracerService::pre_flush_cb" e in
          (s, env_log 1 [ LStr (chn_name channel);
                          LStr ": roctracer: Tracing initialized" ] e).

(** init_callbacks (lines 363-374) *)
Definition init_callbacks (channel : Channel) (e : Env) : Env :=
  let '(_, e) := vendor (roctracer_set_properties ACTIVITY_DOMAIN_HIP_API) e in
  let '(status, e) :=
    vendor (roctracer_enable_domain_callback ACTIVITY_DOMAIN_HIP_API) e in
  if decide (status ≠ 0)
  then env_log 0 (error_line channel ": roctracer: enable callback (HIP): " e) e
  else env_log 1 [ LStr (chn_name channel);
                   LStr ": roctracer: Callbacks initialized" ] e.

(** finish_tracing (lines 376-383) *)
Definition finish_tracing (s : RocTracerService) (channel : Channel) (e : Env)
  : RocTracerService * Env :=
  let '(_, e) := vendor (roctracer_disable_domain_activity ACTIVITY_DOMAIN_HCC_OPS) e in
  let '(_, e) := vendor (roctracer_disable_domain_activity ACTIVITY_DOMAIN_HIP_OPS) e in
  let '(_, e) := vendor (roctracer_close_pool_expl (m_roctracer_pool s)) e in
  let s := set_roctracer_pool None s in
  (s, env_log 1 [ LStr (chn_name channel);
                  LStr ": roctracer: Tracing stopped" ] e).

(** finish_callbacks (lines 385-389) *)
Definition finish_callbacks (channel : Channel) (e : Env) : Env :=
  let '(_, e) :=
    vendor (roctracer_disable_domain_callback ACTIVITY_DOMAIN_HIP_API) e in
  env_log 1 [ LStr (chn_name channel);
              LStr ": roctracer: Callbacks stopped" ] e.

(** post_init_cb (lines 391-398) *)
Definition post_init_cb (s : RocTracerService) (channel : Channel) (e : Env)
  : RocTracerService * Env :=
  let e := subscribe_attributes s channel e in
  let e := init_callbacks channel e in
  if m_enable_tracing s then init_tracing s channel e else (s, e).

(** pre_finish_cb (lines 400-405) *)
Definition pre_finish_cb (s : RocTracerService) (channel : Channel) (e : Env)
  : RocTracerService * Env :=
  let e := finish_callbacks channel e in
  if m_enable_tracing s then finish_tracing s channel e else (s, e).

(** the four calls of init_tracing in their order, for the pool [pool] *)
Definition tracing_calls (pool : option Z) : list vendor_call :=
  [ roctracer_open_pool_expl 16777216;
    roctracer_default_pool_expl pool;
    roctracer_enable_domain_activity_expl ACTIVITY_DOMAIN_HIP_OPS pool;
    roctracer_enable_domain_activity_expl ACTIVITY_DOMAIN_HCC_OPS pool ].

(** a list of calls made one after the other up to and including the
    first that does not return 0: the calls recorded, and whether all
    returned 0 *)
Fixpoint until_failure (made : list vendor_call) (todo : list vendor_call)
  : list vendor_call * bool :=
  match todo with
  | [] => (made, true)
  | call :: rest =>
      if decide (roctracer_status made call ≠ 0)
      then (made ++ [call], false)
      else until_failure (made ++ [call]) rest
  end.

End WithLibrary.

End Lifecycle.

(** ** What a flush does to the correlation store, as functions of the
    records flushed *)

Module Accounting.

Import RocTracer Notions.

(** the node a take of [id] returns from the map [m] *)
Definition taken_node (m : gmap Z (option Node)) (id : Z) : option Node :=
  default None (m !! id).

(** the map after the takes for the records [rs], in order *)
Definition drain_map (m : gmap Z (option Node))
    (rs : list roctracer_record_t) : gmap Z (option Node) :=
  foldl (λ acc r, delete (correlation_id r) acc) m rs.

(** the found counter after the takes for the records [rs] *)
Fixpoint drain_found (m : gmap Z (option Node)) (found : Z)
    (rs : list roctracer_record_t) : Z :=
  match rs with
  | [] => found
  | r :: rest =>
      drain_found (delete (correlation_id r) m)
        (match taken_node m (correlation_id r) with
         | Some _ => wrap32 (found + 1)
         | None => found
         end) rest
  end.

(** the missed counter after the takes for the records [rs] *)
Fixpoint drain_missed (m : gmap Z (option Node)) (missed : Z)
    (rs : list roctracer_record_t) : Z :=
  match rs with
  | [] => missed
  | r :: rest =>
      drain_missed (delete (correlation_id r) m)
        (match taken_node m (correlation_id r) with
         | Some _ => missed
         | None => wrap32 (missed + 1)
         end) rest
  end.

(** the number of records of [rs] whose take finds a node *)
Fixpoint hits (m : gmap Z (option Node)) (rs : list roctracer_record_t) : nat :=
  match rs with
  | [] => 0%nat
  | r :: rest =>
      ((match taken_node m (correlation_id r) with
        | Some _ => 1
        | None => 0
        end) + hits (delete (correlation_id r) m) rest)%nat
  end.

Section WithExternals.
Context {ext : Externals}.

(** the snapshots for the records [rs]: the fields of each record, and
    as inherited branch the node its take returns *)
Fixpoint drain_snapshots (s : RocTracerService) (m : gmap Z (option Node))
    (rs : list roctracer_record_t) : list SnapshotView :=
  match rs with
  | [] => []
  | r :: rest =>
      mkSnapshotView (record_fields s r) (taken_node m (correlation_id r))
      :: drain_snapshots s (delete (correlation_id r) m) rest
  end.

(** the service after the flush of a buffer *)
Definition after_flush (s : RocTracerService) (buf : activity_buffer)
  : RocTracerService :=
  update s
    (wrap32 (m_num_records s + Z.of_nat (length (visited buf))))
    (wrap32 (m_num_flushed s + Z.of_nat (length (flushed_records buf))))
    (wrap32 (m_num_flushes s + 1))
    (m_num_correlations_stored s)
    (drain_found (m_correlation_map s) (m_num_correlations_found s)
                 (flushed_records buf))
    (drain_missed (m_correlation_map s) (m_num_correlations_missed s)
                  (flushed_records buf))
    (drain_map (m_correlation_map s) (flushed_records buf)).

End WithExternals.

End Accounting.

(** ** More of the concrete run *)

Module ScenarioMore.

Import RocTracer Scenario.

(** the service with [node_a] stored under 42 *)
Definition service_42 : RocTracerService :=
  push_correlation 42 (Some node_a) service.

(** a copy of 64 bytes, also of id 42 *)
Definition record_copy_42 : roctracer_record_t :=
  mk_roctracer_record 2 1 0 3000 3100 0 0 64 42.

(** a channel that asks for kernel names, and its service *)
Definition channel_k : Channel :=
  mkChannel 3 "k" {[ "roctracer.record_kernel_names" := true ]}.

Definition service_k : RocTracerService :=
  (RocTracerService_new runtime0 channel_k).1.

(** a kernel launch under correlation id 43 *)
Definition enter_launch : hip_api_data_t := mk_hip_api_data 0 43 4096 0 0.

(** the allocators of [allocators], listed the other way round *)
Definition allocators_reversed : Umpire.ResourceManager :=
  Umpire.mkResourceManager ["DEVICE"; "HOST"]
    (Umpire.getAllocator allocators).

(** trigger info of two fields *)
Definition info_2 : SnapshotView :=
  mkSnapshotView [ (Attribute_invalid, VUint 1); (Attribute_invalid, VUint 2) ]
                 None.

End ScenarioMore.

(** * Properties *)

Module UnsignedFacts.

Lemma wrap32_small z : 0 ≤ z ≤ UINT_MAX → wrap32 z = z.
Proof. unfold wrap32, UINT_MAX. intros ?. apply Z.mod_small. lia. Qed.

Lemma wrap64_small z : 0 ≤ z ≤ UINT64_MAX → wrap64 z = z.
Proof. unfold wrap64, UINT64_MAX. intros ?. apply Z.mod_small. lia. Qed.

Lemma wrap32_range z : 0 ≤ wrap32 z ≤ UINT_MAX.
Proof. unfold wrap32, UINT_MAX. pose proof (Z.mod_pos_bound z (2 ^ 32)). lia. Qed.

Lemma wrap64_range z : 0 ≤ wrap64 z ≤ UINT64_MAX.
Proof. unfold wrap64, UINT64_MAX. pose proof (Z.mod_pos_bound z (2 ^ 64)). lia. Qed.

Lemma wrap64_add_l a b : wrap64 (wrap64 a + b) = wrap64 (a + b).
Proof. unfold wrap64. apply Zplus_mod_idemp_l. Qed.

Lemma wrap32_add_l a b : wrap32 (wrap32 a + b) = wrap32 (a + b).
Proof. unfold wrap32. apply Zplus_mod_idemp_l. Qed.

Lemma wrap32_add_r a b : wrap32 (a + wrap32 b) = wrap32 (a + b).
Proof. unfold wrap32. apply Zplus_mod_idemp_r. Qed.

Lemma wrap32_succ z : 0 ≤ z < UINT_MAX → wrap32 (z + 1) = z + 1.
Proof. intros ?. apply wrap32_small. lia. Qed.

Lemma wrap32_incr z :
  0 ≤ z ≤ UINT_MAX →
  wrap32 (z + 1) = if decide (z = UINT_MAX) then 0 else z + 1.
Proof.
  intros Hz. destruct (decide (z = UINT_MAX)) as [->|Hne].
  - reflexivity.
  - apply wrap32_small. lia.
Qed.

End UnsignedFacts.

Import UnsignedFacts.

(** ** The correlation store *)

Module CorrelationStore.

Import RocTracer.

Lemma map_set_correlation_map m s :
  m_correlation_map (set_correlation_map m s) = m.
Proof. reflexivity. Qed.

Lemma set_correlation_map_id s :
  set_correlation_map (m_correlation_map s) s = s.
Proof. by destruct s. Qed.

Lemma push_lookup id n s :
  m_correlation_map (push_correlation id n s) !! id = Some n.
Proof. unfold push_correlation. simpl. apply lookup_insert_eq. Qed.

Lemma push_lookup_ne id id' n s :
  id ≠ id' →
  m_correlation_map (push_correlation id n s) !! id'
  = m_correlation_map s !! id'.
Proof. intros ?. unfold push_correlation. simpl. by apply lookup_insert_ne. Qed.

Lemma pop_hit id n s :
  m_correlation_map s !! id = Some n →
  pop_correlation id s
  = (n, set_correlation_map (delete id (m_correlation_map s)) s).
Proof. intros H. unfold pop_correlation. by rewrite H. Qed.

Lemma pop_miss id s :
  m_correlation_map s !! id = None → pop_correlation id s = (None, s).
Proof. intros H. unfold pop_correlation. by rewrite H. Qed.

Lemma pop_removes id s :
  m_correlation_map (pop_correlation id s).2 !! id = None.
Proof.
  unfold pop_correlation.
  destruct (m_correlation_map s !! id) eqn:E; simpl; [|done].
  apply lookup_delete_eq.
Qed.

Lemma pop_lookup_ne id id' s :
  id ≠ id' →
  m_correlation_map (pop_correlation id s).2 !! id'
  = m_correlation_map s !! id'.
Proof.
  intros ?. unfold pop_correlation.
  destruct (m_correlation_map s !! id); simpl; [|done].
  by apply lookup_delete_ne.
Qed.

(** operations on other ids leave the entry of [id] alone *)
Lemma run_ops_lookup_other id os : ∀ s,
  Forall (λ o, op_id o ≠ id) os →
  m_correlation_map (run_ops os s) !! id = m_correlation_map s !! id.
Proof.
  induction os as [|o os IH]; intros s Hos; [done|].
  inversion Hos as [|? ? Ho Hos']; subst.
  unfold run_ops in *. cbn [fold_left]. rewrite IH by done.
  destruct o as [id' n|id']; cbn [run_op op_id] in *.
  - by apply push_lookup_ne.
  - by apply pop_lookup_ne.
Qed.

(** an id that no operation of a run stores has no entry afterwards,
    when it had none before *)
Lemma never_stored_absent id os s :
  m_correlation_map s !! id = None →
  Forall (λ o, ∀ n, o ≠ Store id n) os →
  m_correlation_map (run_ops os s) !! id = None.
Proof.
  revert s. induction os as [|o os IH]; intros s Hs Hos; [done|].
  inversion Hos as [|? ? Ho Hos']; subst.
  unfold run_ops in *. cbn [fold_left]. apply IH; [|done].
  destruct o as [id' n|id']; cbn [run_op].
  - destruct (decide (id' = id)) as [->|Hne].
    + by destruct (Ho n).
    + by rewrite push_lookup_ne.
  - destruct (decide (id' = id)) as [->|Hne].
    + apply pop_removes.
    + by rewrite pop_lookup_ne.
Qed.

(** the map holds one entry per key *)
Lemma entries_for_lookup id s :
  entries_for id s
  = match m_correlation_map s !! id with
    | Some n => [(id, n)]
    | None => []
    end.
Proof.
  unfold entries_for.
  induction (m_correlation_map s) as [|k v m Hk IH] using map_ind.
  - by rewrite map_to_list_empty, lookup_empty.
  - destruct (decide (k = id)) as [->|Hne].
    + rewrite lookup_insert_eq.
      apply Permutation_singleton_r.
      rewrite map_to_list_insert by done.
      rewrite filter_cons_True by done.
      rewrite IH, Hk. done.
    + rewrite lookup_insert_ne by done.
      rewrite <- IH.
      assert (Hp : filter (λ kv : Z * option Node, kv.1 = id)
                     (map_to_list (<[k:=v]> m))
                   ≡ₚ filter (λ kv : Z * option Node, kv.1 = id)
                        (map_to_list m)).
      { rewrite map_to_list_insert by done.
        by rewrite filter_cons_False by done. }
      rewrite IH in Hp |- *.
      destruct (m !! id).
      * by apply Permutation_singleton_r.
      * by apply Permutation_nil_r.
Qed.

(** C1: a take after a store of the same id, with only operations on
    other ids in between, returns the stored node and removes the entry;
    a second take right after it returns null. *)
Theorem take_after_store (id : Z) (n : option Node)
    (os : list correlation_op) (s : RocTracerService) :
  Forall (λ o, op_id o ≠ id) os →
  let s1 := run_ops os (push_correlation id n s) in
  let r1 := pop_correlation id s1 in
  r1.1 = n
  ∧ r1.2 = set_correlation_map (delete id (m_correlation_map s1)) s1
  ∧ m_correlation_map r1.2 !! id = None
  ∧ pop_correlation id r1.2 = (None, r1.2).
Proof.
  intros Hos s1 r1.
  assert (Hl : m_correlation_map s1 !! id = Some n).
  { unfold s1. rewrite run_ops_lookup_other by done. apply push_lookup. }
  assert (Hr : r1 = (n, set_correlation_map (delete id (m_correlation_map s1)) s1)).
  { unfold r1. by apply pop_hit. }
  rewrite Hr. simpl. repeat split.
  - apply lookup_delete_eq.
  - apply pop_miss. simpl. apply lookup_delete_eq.
Qed.

(** C2: two stores under one id leave one entry for it, the second
    node; the next take returns the second node and no entry remains. *)
Theorem store_overwrites (id : Z) (n1 n2 : option Node) (s : RocTracerService) :
  let s1 := push_correlation id n1 s in
  let s2 := push_correlation id n2 s1 in
  entries_for id s2 = [(id, n2)]
  ∧ (length (entries_for id s2) ≤ 1)%nat
  ∧ size (m_correlation_map s2) = size (m_correlation_map s1)
  ∧ (pop_correlation id s2).1 = n2
  ∧ entries_for id (pop_correlation id s2).2 = [].
Proof.
  intros s1 s2.
  assert (Hl : m_correlation_map s2 !! id = Some n2) by apply push_lookup.
  assert (He : entries_for id s2 = [(id, n2)]).
  { by rewrite entries_for_lookup, Hl. }
  repeat split.
  - done.
  - by rewrite He.
  - unfold s2, s1, push_correlation. simpl.
    rewrite insert_insert_eq.
    by rewrite !map_size_insert.
  - by rewrite (pop_hit _ _ _ Hl).
  - by rewrite entries_for_lookup, pop_removes.
Qed.

End CorrelationStore.

(** ** The runtime operations leave the rest of the state alone *)

Module RuntimeFrame.

Lemma Log_processed level line c : processed (Log level line c) = processed c.
Proof. unfold Log. by destruct (decide _). Qed.

Lemma Log_thread_ctx level line c : thread_ctx (Log level line c) = thread_ctx c.
Proof. unfold Log. by destruct (decide _). Qed.

Lemma Log_verbosity level line c : verbosity (Log level line c) = verbosity c.
Proof. unfold Log. by destruct (decide _). Qed.

Lemma Log_written level line c :
  level ≤ verbosity c → log (Log level line c) = log c ++ [line].
Proof. intros H. unfold Log. by rewrite decide_True. Qed.

Lemma Log_connections level line c :
  connections (Log level line c) = connections c.
Proof. unfold Log. by destruct (decide _). Qed.

Lemma Log_silent level line c : verbosity c < level → Log level line c = c.
Proof. intros H. unfold Log. rewrite decide_False; [done|lia]. Qed.

Lemma end_processed tid a c : processed (end_ tid a c) = processed c.
Proof.
  unfold end_. destruct (thread_ctx c !! tid) as [n|]; [|apply Log_processed].
  destruct (decide _); [|apply Log_processed].
  by destruct (node_parent n).
Qed.

Lemma end_verbosity tid a c : verbosity (end_ tid a c) = verbosity c.
Proof.
  unfold end_. destruct (thread_ctx c !! tid) as [n|]; [|apply Log_verbosity].
  destruct (decide _); [|apply Log_verbosity].
  by destruct (node_parent n).
Qed.

(** an end that matches the begin restores the context of the thread
    and writes nothing *)
Lemma end_after_begin tid a v c c1 :
  thread_ctx c1 = thread_ctx (begin tid a v c) →
  thread_ctx (end_ tid a c1) !! tid = thread_ctx c !! tid
  ∧ log (end_ tid a c1) = log c1.
Proof.
  intros Hctx. unfold end_. rewrite Hctx. simpl.
  rewrite lookup_insert_eq. simpl. rewrite decide_True by done.
  destruct (thread_ctx c !! tid) as [p|] eqn:Hp; simpl; rewrite ?Hctx; simpl.
  - by rewrite lookup_insert_eq.
  - by rewrite lookup_delete_eq.
Qed.

End RuntimeFrame.

Import RuntimeFrame.

(** ** The flush pipeline *)

Module FlushPipeline.

Import RocTracer Notions CorrelationStore.

Section WithExternals.
Context {ext : Externals}.

Lemma correlation_frame_refl s : correlation_frame s s.
Proof. unfold correlation_frame. by destruct s. Qed.

Lemma correlation_frame_trans s1 s2 s3 :
  correlation_frame s1 s2 → correlation_frame s2 s3 → correlation_frame s1 s3.
Proof.
  unfold correlation_frame. intros H12 H23.
  rewrite H23 at 1. rewrite H12. reflexivity.
Qed.

Lemma flush_record_skip record s c :
  is_activity_record record = false → flush_record record s c = (0, s, c).
Proof. intros H. unfold flush_record. by rewrite H. Qed.

Lemma flush_record_activity record s c :
  is_activity_record record = true →
  flush_record record s c
  = (1, counted (pop_correlation (correlation_id record) s).1
                (pop_correlation (correlation_id record) s).2,
     process_snapshot (m_channel s) SnapshotView_empty
       (mkSnapshotView (record_fields s record)
                       (pop_correlation (correlation_id record) s).1) c).
Proof.
  intros H. unfold flush_record, record_fields. rewrite H.
  destruct (pop_correlation (correlation_id record) s) as [parent s1] eqn:Hpop.
  assert (Hch : m_channel s1 = m_channel s).
  { unfold pop_correlation in Hpop.
    destruct (m_correlation_map s !! correlation_id record);
      by inversion Hpop. }
  destruct (decide (op record = HIP_OP_ID_COPY)); simpl;
    destruct parent; simpl; rewrite ?Hch; reflexivity.
Qed.

Lemma correlation_frame_static s s' :
  correlation_frame s s' →
  m_channel s' = m_channel s
  ∧ m_flush_region_attr s' = m_flush_region_attr s
  ∧ m_num_records s' = m_num_records s
  ∧ m_num_flushed s' = m_num_flushed s
  ∧ m_num_flushes s' = m_num_flushes s
  ∧ m_num_correlations_stored s' = m_num_correlations_stored s
  ∧ ∀ record, record_fields s' record = record_fields s record.
Proof. unfold correlation_frame. intros ->. by repeat split. Qed.

Lemma correlation_frame_pop id s :
  correlation_frame s (counted (pop_correlation id s).1 (pop_correlation id s).2).
Proof.
  unfold correlation_frame, pop_correlation.
  destruct (m_correlation_map s !! id) as [[n|]|]; by destruct s.
Qed.

Lemma set_processed_id c : set_processed (processed c) c = c.
Proof. by destruct c. Qed.

(** flush_record in one form for both kinds of record *)
Lemma flush_record_spec record s c :
  ∃ s1 vs,
    flush_record record s c
    = (Z.of_nat (length vs), s1,
       set_processed (processed c ++ tagged s vs) c)
    ∧ correlation_frame s s1
    ∧ map sv_fields vs
      = map (record_fields s)
            (filter (λ r, is_activity_record r = true) [record])
    ∧ (length vs ≤ 1)%nat.
Proof.
  destruct (is_activity_record record) eqn:Hact.
  - eexists _, [_]. split; [|split; [|split]].
    + rewrite flush_record_activity by done. reflexivity.
    + apply correlation_frame_pop.
    + rewrite filter_cons_True by done. reflexivity.
    + simpl. lia.
  - exists s, []. split; [|split; [|split]].
    + rewrite flush_record_skip by done. simpl.
      by rewrite app_nil_r, set_processed_id.
    + apply correlation_frame_refl.
    + rewrite filter_cons_False; [done|]. by rewrite Hact.
    + simpl. lia.
Qed.

Lemma flush_loop_cons record next_status rest nf nr s c :
  flush_loop ((record, next_status) :: rest) nf nr s c
  = let '(n, s1, c1) := flush_record record s c in
    if decide (next_status ≠ 0)
    then (wrap32 (nf + n), wrap32 (nr + 1), s1, c1)
    else flush_loop rest (wrap32 (nf + n)) (wrap32 (nr + 1)) s1 c1.
Proof. reflexivity. Qed.

Lemma flushed_records_cons record next_status rest :
  flushed_records ((record, next_status) :: rest)
  = filter (λ r, is_activity_record r = true) [record]
    ++ (if decide (next_status ≠ 0) then [] else flushed_records rest).
Proof.
  unfold flushed_records. cbn [visited].
  change (record :: ?l) with ([record] ++ l).
  rewrite filter_app. by destruct (decide (next_status ≠ 0)).
Qed.

(** the loop: the two local counters, the state of the service and the
    snapshots dispatched, for any buffer *)
Lemma flush_loop_spec buf : ∀ nf nr s c,
  0 ≤ nf ≤ UINT_MAX → 0 ≤ nr ≤ UINT_MAX →
  ∃ s' vs,
    flush_loop buf nf nr s c
    = (wrap32 (nf + Z.of_nat (length (flushed_records buf))),
       wrap32 (nr + Z.of_nat (length (visited buf))),
       s',
       set_processed (processed c ++ tagged s vs) c)
    ∧ correlation_frame s s'
    ∧ map sv_fields vs = map (record_fields s) (flushed_records buf).
Proof.
  induction buf as [|[record next_status] rest IH]; intros nf nr s c Hnf Hnr.
  - exists s, []. simpl. split; [|split].
    + rewrite !Z.add_0_r, !wrap32_small by done.
      by rewrite app_nil_r, set_processed_id.
    + apply correlation_frame_refl.
    + done.
  - rewrite flush_loop_cons, flushed_records_cons. cbn [visited].
    destruct (flush_record_spec record s c) as (s1 & vs1 & -> & Hf1 & Hv1 & Hle).
    assert (Hlen : length (filter (λ r, is_activity_record r = true) [record])
                   = length vs1).
    { by rewrite <- (length_map (record_fields s)), <- Hv1, length_map. }
    destruct (decide (next_status ≠ 0)) as [Hfail|Hok].
    + exists s1, vs1. split; [|split].
      * rewrite app_nil_r, Hlen. reflexivity.
      * done.
      * by rewrite app_nil_r.
    + destruct (IH (wrap32 (nf + Z.of_nat (length vs1))) (wrap32 (nr + 1)) s1
                   (set_processed (processed c ++ tagged s vs1) c))
        as (s2 & vs2 & -> & Hf2 & Hv2);
        [apply wrap32_range | apply wrap32_range |].
      destruct (correlation_frame_static _ _ Hf1) as (Hch & _ & _ & _ & _ & _ & Hrf).
      exists s2, (vs1 ++ vs2). split; [|split].
      * rewrite !wrap32_add_l. rewrite length_app, Hlen. simpl.
        unfold tagged. rewrite Hch, map_app, app_assoc.
        repeat apply (f_equal2 pair); try reflexivity; f_equal; lia.
      * by eapply correlation_frame_trans.
      * rewrite !map_app, Hv1, Hv2. f_equal.
        apply map_ext. intros r. apply Hrf.
Qed.

(** flush_activity_records, for any buffer: what the service and the
    runtime look like afterwards *)
Lemma flush_activity_records_spec tid buf s c :
  let nf := wrap32 (Z.of_nat (length (flushed_records buf))) in
  let nr := wrap32 (Z.of_nat (length (visited buf))) in
  let r := flush_activity_records tid buf s c in
  ∃ s1 vs,
    correlation_frame s s1
    ∧ map sv_fields vs = map (record_fields s) (flushed_records buf)
    ∧ r.1 = set_flush_counters (wrap32 (m_num_records s + nr))
                               (wrap32 (m_num_flushed s + nf))
                               (wrap32 (m_num_flushes s + 1)) s1
    ∧ processed r.2 = processed c ++ tagged s vs
    ∧ thread_ctx r.2 !! tid = thread_ctx c !! tid
    ∧ log r.2 = log c ++ (if decide (2 ≤ verbosity c)
                          then [flush_line s nr nf] else [])
    ∧ reported_skipped tid buf s c = wrap32 (nr - nf).
Proof.
  intros nf nr r. unfold r, flush_activity_records, reported_skipped.
  set (c0 := begin tid (m_flush_region_attr s) (VString "ROCTRACER FLUSH") c).
  destruct (flush_loop_spec buf 0 0 s c0) as (s1 & vs & -> & Hf & Hv);
    [unfold UINT_MAX; lia | unfold UINT_MAX; lia |].
  rewrite !Z.add_0_l. fold nf nr.
  destruct (correlation_frame_static _ _ Hf)
    as (Hch & Hfl & Hnr & Hnf & Hnfl & _ & _).
  exists s1, vs. split; [done|]. split; [done|].
  set (c1 := set_processed (processed c0 ++ tagged s vs) c0).
  set (c2 := if decide (2 ≤ verbosity c1) then Log 2 _ c1 else c1).
  assert (Hc2p : processed c2 = processed c ++ tagged s vs).
  { unfold c2. destruct (decide _); [rewrite Log_processed|]; reflexivity. }
  assert (Hc2t : thread_ctx c2 = thread_ctx c0).
  { unfold c2. destruct (decide _); [rewrite Log_thread_ctx|]; reflexivity. }
  assert (Hc2l : log c2 = log c ++ (if decide (2 ≤ verbosity c)
                                    then [flush_line s nr nf] else [])).
  { unfold c2. change (verbosity c1) with (verbosity c).
    destruct (decide (2 ≤ verbosity c)) as [Hv2|Hv2].
    - rewrite Log_written by done. unfold flush_line. by rewrite Hch.
    - simpl. by rewrite app_nil_r. }
  cbn [fst snd].
  change (m_flush_region_attr (set_flush_counters _ _ _ s1))
    with (m_flush_region_attr s1).
  rewrite Hfl.
  destruct (end_after_begin tid (m_flush_region_attr s)
              (VString "ROCTRACER FLUSH") c c2 Hc2t) as [Hctx Hlog].
  rewrite Hnr, Hnf, Hnfl.
  repeat split.
  - by rewrite end_processed.
  - done.
  - by rewrite Hlog.
Qed.

Lemma visited_flushed_skipped buf :
  length (visited buf)
  = (length (flushed_records buf) + length (skipped_records buf))%nat.
Proof.
  unfold flushed_records, skipped_records.
  induction (visited buf) as [|r l IH]; [done|].
  destruct (is_activity_record r) eqn:Hact.
  - rewrite filter_cons_True, filter_cons_False by (by rewrite ?Hact).
    simpl. by rewrite IH.
  - rewrite filter_cons_False, filter_cons_True by (by rewrite ?Hact).
    simpl. rewrite IH. lia.
Qed.

Lemma visited_stop pre record status post :
  Forall (λ x : roctracer_record_t * Z, x.2 = 0) pre → status ≠ 0 →
  visited (pre ++ (record, status) :: post) = map fst pre ++ [record]
  ∧ remaining (pre ++ (record, status) :: post) = map fst post.
Proof.
  intros Hpre Hst.
  induction Hpre as [|[r st] pre Hr Hpre IH]; cbn [app visited remaining map fst].
  - by rewrite !decide_True.
  - cbn [snd] in Hr. subst st. rewrite !decide_False by (intros ?; done).
    destruct IH as [-> ->]. done.
Qed.

Lemma visited_all buf :
  Forall (λ x : roctracer_record_t * Z, x.2 = 0) buf →
  visited buf = map fst buf ∧ remaining buf = [].
Proof.
  intros Hbuf.
  induction Hbuf as [|[r st] buf Hr Hbuf IH]; cbn [visited remaining map fst];
    [done|].
  cbn [snd] in Hr. subst st. rewrite !decide_False by (intros ?; done).
  destruct IH as [-> ->]. done.
Qed.

(** the loop stops at a failed advance: what lies behind it plays no
    part *)
Lemma flush_loop_stop pre record status post : ∀ nf nr s c,
  Forall (λ x : roctracer_record_t * Z, x.2 = 0) pre → status ≠ 0 →
  flush_loop (pre ++ (record, status) :: post) nf nr s c
  = flush_loop (pre ++ [(record, status)]) nf nr s c.
Proof.
  intros nf nr s c Hpre Hst. revert nf nr s c.
  induction Hpre as [|[r st] pre Hr Hpre IH]; intros nf nr s c.
  - cbn [app]. rewrite !flush_loop_cons.
    destruct (flush_record record s c) as [[n s1] c1].
    by destruct (decide (status ≠ 0)).
  - cbn [snd] in Hr. subst st. rewrite <- !app_comm_cons, !flush_loop_cons.
    destruct (flush_record r s c) as [[n s1] c1].
    destruct (decide (0 ≠ 0)); [done|]. apply IH.
Qed.

(** C6, amended: the records are visited in the order the source links
    them (all of them when no advance fails), and the visited records
    of the domains HIP_OPS and HCC_OPS give rise to one snapshot each,
    dispatched in that order through process_snapshot; the records of
    other domains give rise to none. *)
Theorem flush_dispatches_in_order (tid : Z) (buf : activity_buffer)
    (s : RocTracerService) (c : Caliper) :
  ∃ vs : list SnapshotView,
    dispatched c (flush_activity_records tid buf s c).2 = tagged s vs
    ∧ map sv_fields vs = map (record_fields s) (flushed_records buf)
    ∧ length vs = length (flushed_records buf)
    ∧ flushed_records buf
      = filter (λ r, is_activity_record r = true) (visited buf)
    ∧ (Forall (λ x : roctracer_record_t * Z, x.2 = 0) buf →
       visited buf = map fst buf).
Proof.
  destruct (flush_activity_records_spec tid buf s c)
    as (s1 & vs & _ & Hv & _ & Hp & _).
  exists vs. unfold dispatched. rewrite Hp, drop_app_length.
  split; [done|]. split; [done|]. split; [|split; [done|]].
  - by rewrite <- (length_map sv_fields), Hv, length_map.
  - intros Hok. by apply visited_all.
Qed.

(** C7, amended: a record of another domain is counted as seen, not as
    flushed, and the loop goes on to the next record; when the advance
    fails the flush ends there, the snapshots dispatched so far stay,
    and the records behind the failure are neither processed nor
    counted: the skipped number reported is that of the visited records
    of other domains. *)
Theorem flush_skips_and_stops (tid : Z) (buf : activity_buffer)
    (s : RocTracerService) (c : Caliper) :
  let r := flush_activity_records tid buf s c in
  (∀ record rest nf nr s0 c0,
      is_activity_record record = false →
      flush_loop ((record, 0) :: rest) nf nr s0 c0
      = flush_loop rest (wrap32 (nf + 0)) (wrap32 (nr + 1)) s0 c0)
  ∧ (∀ pre record status post,
      buf = pre ++ (record, status) :: post →
      Forall (λ x : roctracer_record_t * Z, x.2 = 0) pre → status ≠ 0 →
      visited buf = map fst pre ++ [record]
      ∧ remaining buf = map fst post
      ∧ r = flush_activity_records tid (pre ++ [(record, status)]) s c)
  ∧ (∃ vs, processed r.2 = processed c ++ tagged s vs
           ∧ map sv_fields vs = map (record_fields s) (flushed_records buf))
  ∧ m_num_records r.1
    = wrap32 (m_num_records s + Z.of_nat (length (visited buf)))
  ∧ m_num_flushed r.1
    = wrap32 (m_num_flushed s + Z.of_nat (length (flushed_records buf)))
  ∧ reported_skipped tid buf s c
    = wrap32 (Z.of_nat (length (skipped_records buf))).
Proof.
  intros r. split; [|split].
  - intros record rest nf nr s0 c0 Hact.
    rewrite flush_loop_cons, flush_record_skip by done.
    by rewrite decide_False by (intros ?; done).
  - intros pre record status post -> Hpre Hst.
    destruct (visited_stop pre record status post Hpre Hst) as [Hv Hr].
    split; [done|]. split; [done|].
    unfold r, flush_activity_records.
    by rewrite flush_loop_stop.
  - destruct (flush_activity_records_spec tid buf s c)
      as (s1 & vs & _ & Hv & Hs & Hp & _ & _ & Hsk).
    fold r in Hs, Hp. split; [by exists vs|].
    rewrite Hs, Hsk. cbn [m_num_records m_num_flushed set_flush_counters update].
    rewrite !wrap32_add_r. repeat split.
    unfold wrap32. rewrite Zminus_mod_idemp_l, Zminus_mod_idemp_r.
    f_equal. rewrite visited_flushed_skipped. lia.
Qed.

(** the buffer callback adds at most a log line to the flush *)
Lemma rt_activity_callback_flush tid buf size s c :
  (rt_activity_callback tid buf size s c).1
  = (flush_activity_records tid buf s c).1
  ∧ processed (rt_activity_callback tid buf size s c).2
    = processed (flush_activity_records tid buf s c).2
  ∧ thread_ctx (rt_activity_callback tid buf size s c).2
    = thread_ctx (flush_activity_records tid buf s c).2.
Proof.
  unfold rt_activity_callback.
  destruct (flush_activity_records tid buf s c) as [s1 c1]. simpl.
  destruct (decide _); by rewrite ?Log_processed, ?Log_thread_ctx.
Qed.

Lemma pop_static id s :
  m_channel (pop_correlation id s).2 = m_channel s
  ∧ m_num_records (pop_correlation id s).2 = m_num_records s
  ∧ m_num_flushed (pop_correlation id s).2 = m_num_flushed s
  ∧ m_num_flushes (pop_correlation id s).2 = m_num_flushes s.
Proof. unfold pop_correlation. by destruct (m_correlation_map s !! id). Qed.

(** the buffer callback on a buffer of one activity record *)
Lemma rt_activity_callback_single tid record status size s c :
  is_activity_record record = true →
  let p := pop_correlation (correlation_id record) s in
  let r := rt_activity_callback tid [(record, status)] size s c in
  r.1 = set_flush_counters (wrap32 (m_num_records s + 1))
                           (wrap32 (m_num_flushed s + 1))
                           (wrap32 (m_num_flushes s + 1))
                           (counted p.1 p.2)
  ∧ processed r.2
    = processed c ++ [(chn_id (m_channel s), SnapshotView_empty,
                       mkSnapshotView (record_fields s record) p.1)].
Proof.
  intros Hact p r.
  destruct (rt_activity_callback_flush tid [(record, status)] size s c)
    as (H1 & H2 & _).
  unfold r. rewrite H1, H2. clear H1 H2.
  unfold flush_activity_records.
  rewrite flush_loop_cons, flush_record_activity by done.
  fold p. cbn [flush_loop].
  destruct (pop_static (correlation_id record) s) as (Hch & Hr & Hf & Hfl).
  fold p in Hch, Hr, Hf, Hfl.
  assert (Hc : m_num_records (counted p.1 p.2) = m_num_records s
               ∧ m_num_flushed (counted p.1 p.2) = m_num_flushed s
               ∧ m_num_flushes (counted p.1 p.2) = m_num_flushes s).
  { unfold counted. by destruct p.1. }
  destruct Hc as (Hr' & Hf' & Hfl').
  destruct (decide (status ≠ 0)); cbn [fst snd];
    rewrite Hr', Hf', Hfl', end_processed;
    (split; [reflexivity|]);
    destruct (decide _); by rewrite ?Log_processed.
Qed.

(** C8: a buffer callback with [begin = end] dispatches no snapshot and
    leaves every counter as it is, except the flush count, which goes
    up by one (from [UINT_MAX] to 0, as an [unsigned] does). *)
Theorem empty_buffer_flush (tid size : Z) (s : RocTracerService) (c : Caliper) :
  counters_in_range s →
  let r := rt_activity_callback tid [] size s c in
  dispatched c r.2 = []
  ∧ processed r.2 = processed c
  ∧ m_num_flushes r.1
    = (if decide (m_num_flushes s = UINT_MAX) then 0 else m_num_flushes s + 1)
  ∧ m_num_records r.1 = m_num_records s
  ∧ m_num_flushed r.1 = m_num_flushed s
  ∧ m_num_correlations_stored r.1 = m_num_correlations_stored s
  ∧ m_num_correlations_found r.1 = m_num_correlations_found s
  ∧ m_num_correlations_missed r.1 = m_num_correlations_missed s
  ∧ m_correlation_map r.1 = m_correlation_map s.
Proof.
  intros (Hr & Hf & Hfl & _) r.
  destruct (rt_activity_callback_flush tid [] size s c) as (H1 & H2 & _).
  assert (Hp : processed r.2 = processed c).
  { unfold r. rewrite H2. unfold flush_activity_records. cbn [flush_loop snd].
    rewrite end_processed. destruct (decide _); by rewrite ?Log_processed. }
  unfold dispatched. rewrite Hp, drop_all.
  unfold r. rewrite H1. unfold flush_activity_records. cbn [flush_loop fst].
  cbn [m_num_flushes m_num_records m_num_flushed m_num_correlations_stored
       m_num_correlations_found m_num_correlations_missed m_correlation_map
       set_flush_counters update].
  rewrite wrap32_incr, !Z.add_0_r, !wrap32_small by done.
  done.
Qed.

(** C5: a take of an id without entry returns null and leaves the map
    alone, and flush_record, the caller of the take, counts one miss for
    it: the missed counter goes up by one (from [UINT_MAX] to 0, as an
    [unsigned] does) and the found counter stays.  An id has no entry
    after a take of it, and as long as no store of it follows. *)
Theorem take_miss_counts (record : roctracer_record_t)
    (s : RocTracerService) (c : Caliper) :
  m_correlation_map s !! correlation_id record = None →
  is_activity_record record = true →
  0 ≤ m_num_correlations_missed s ≤ UINT_MAX →
  let r := flush_record record s c in
  pop_correlation (correlation_id record) s = (None, s)
  ∧ m_num_correlations_missed r.1.2
    = (if decide (m_num_correlations_missed s = UINT_MAX)
       then 0 else m_num_correlations_missed s + 1)
  ∧ m_num_correlations_found r.1.2 = m_num_correlations_found s
  ∧ m_num_correlations_stored r.1.2 = m_num_correlations_stored s
  ∧ m_correlation_map r.1.2 = m_correlation_map s
  ∧ (∀ s0, m_correlation_map
             (pop_correlation (correlation_id record) s0).2
           !! correlation_id record = None)
  ∧ (∀ os, Forall (λ o, ∀ n, o ≠ Store (correlation_id record) n) os →
           m_correlation_map (run_ops os s) !! correlation_id record = None).
Proof.
  intros Hnone Hact Hrange r.
  assert (Hpop := pop_miss _ _ Hnone).
  unfold r. rewrite flush_record_activity, Hpop by done.
  cbn [fst snd counted m_num_correlations_missed m_num_correlations_found
       m_num_correlations_stored m_correlation_map
       set_num_correlations_missed update].
  rewrite wrap32_incr by done.
  repeat split.
  - intros s0. apply pop_removes.
  - intros os Hos. by apply never_stored_absent.
Qed.

(** C4: a completion record whose correlation id has no entry is not an
    error: the buffer callback builds and dispatches one snapshot for
    it, without inherited branch, and the missed counter goes from 0 to
    1. *)
Theorem miss_builds_record (tid status size : Z) (record : roctracer_record_t)
    (s : RocTracerService) (c : Caliper) :
  is_activity_record record = true →
  m_correlation_map s !! correlation_id record = None →
  m_num_correlations_missed s = 0 →
  let r := rt_activity_callback tid [(record, status)] size s c in
  dispatched c r.2
  = [(chn_id (m_channel s), SnapshotView_empty,
      mkSnapshotView (record_fields s record) None)]
  ∧ m_num_correlations_missed r.1 = 1
  ∧ m_num_correlations_found r.1 = m_num_correlations_found s
  ∧ m_correlation_map r.1 = m_correlation_map s.
Proof.
  intros Hact Hnone Hzero r.
  destruct (rt_activity_callback_single tid record status size s c Hact)
    as [Hs Hp].
  fold r in Hs, Hp. rewrite (pop_miss _ _ Hnone) in Hs, Hp.
  unfold dispatched. rewrite Hp, drop_app_length, Hs.
  cbn [fst snd counted m_num_correlations_missed m_num_correlations_found
       m_correlation_map set_num_correlations_missed set_flush_counters update].
  by rewrite Hzero.
Qed.

(** *** From the call to the completion record *)

(** the callback on entering a call, tracing enabled, no kernel name:
    the node begun for the call is stored under the correlation id *)
Lemma hip_api_callback_enter tid domain cid data s c :
  cid ≠ HIP_API_ID___hipPushCallConfiguration →
  cid ≠ HIP_API_ID___hipPopCallConfiguration →
  phase data = ACTIVITY_API_PHASE_ENTER →
  m_enable_tracing s = true →
  kernel_name s cid data = "" →
  let v := VString (roctracer_op_string ACTIVITY_DOMAIN_HIP_API cid 0) in
  let node := mkNode (next_node_id c) (attr_id (m_api_attr s)) v
                     (thread_ctx c !! tid) in
  hip_api_callback tid domain cid data s c
  = (set_num_correlations_stored
       (wrap32 (m_num_correlations_stored s + 1))
       (push_correlation (api_correlation_id data) (Some node) s),
     begin tid (m_api_attr s) v c).
Proof.
  intros Hpush Hpop Hphase Htrace Hkernel v node.
  unfold hip_api_callback.
  rewrite decide_False by (intros [?|?]; done).
  rewrite decide_True by done.
  rewrite Htrace, Hkernel. rewrite (decide_True (P := "" = "")) by done.
  unfold get, begin. cbn [thread_ctx set_thread_ctx set_next_node_id].
  rewrite lookup_insert_eq. cbn [find_node_with_attribute].
  rewrite decide_True by done. reflexivity.
Qed.

(** the callback on leaving the call ends the attribute *)
Lemma hip_api_callback_exit tid domain cid data s c :
  cid ≠ HIP_API_ID___hipPushCallConfiguration →
  cid ≠ HIP_API_ID___hipPopCallConfiguration →
  phase data ≠ ACTIVITY_API_PHASE_ENTER →
  hip_api_callback tid domain cid data s c = (s, end_ tid (m_api_attr s) c).
Proof.
  intros Hpush Hpop Hphase. unfold hip_api_callback.
  rewrite decide_False by (intros [?|?]; done).
  by rewrite decide_False.
Qed.

(** C3: the service starts with an empty correlation store and its
    correlation counters at zero.  A thread enters a call whose API
    attribute value is "matmul" under correlation id 42: the node begun
    is stored and the stored counter is 1.  The thread leaves the call.
    A buffer with one activity record of correlation id 42 and
    [end_ns - begin_ns = 500] then yields one snapshot, with duration
    500 and the stored node, of value "matmul", as inherited branch;
    stored and found are 1, missed is 0. *)
Theorem matmul_scenario (tid_a tid_rt domain cid status size : Z)
    (enter leave : hip_api_data_t) (record : roctracer_record_t)
    (s : RocTracerService) (c : Caliper) :
  m_enable_tracing s = true →
  kernel_name s cid enter = "" →
  m_correlation_map s = ∅ →
  m_num_correlations_stored s = 0 →
  m_num_correlations_found s = 0 →
  m_num_correlations_missed s = 0 →
  cid ≠ HIP_API_ID___hipPushCallConfiguration →
  cid ≠ HIP_API_ID___hipPopCallConfiguration →
  roctracer_op_string ACTIVITY_DOMAIN_HIP_API cid 0 = "matmul" →
  phase enter = ACTIVITY_API_PHASE_ENTER →
  api_correlation_id enter = 42 →
  phase leave ≠ ACTIVITY_API_PHASE_ENTER →
  is_activity_record record = true →
  correlation_id record = 42 →
  end_ns record - begin_ns record = 500 →
  let node := mkNode (next_node_id c) (attr_id (m_api_attr s))
                     (VString "matmul") (thread_ctx c !! tid_a) in
  let r1 := hip_api_callback tid_a domain cid enter s c in
  let r2 := hip_api_callback tid_a domain cid leave r1.1 r1.2 in
  let r3 := rt_activity_callback tid_rt [(record, status)] size r2.1 r2.2 in
  (thread_ctx r1.2 !! tid_a = Some node
   ∧ m_correlation_map r1.1 = {[ 42 := Some node ]}
   ∧ m_num_correlations_stored r1.1 = 1)
  ∧ thread_ctx r2.2 !! tid_a = thread_ctx c !! tid_a
  ∧ (∃ v, dispatched c r3.2 = [(chn_id (m_channel s), SnapshotView_empty, v)]
          ∧ (m_activity_duration_attr s, VUint 500) ∈ sv_fields v
          ∧ sv_branch v = Some node
          ∧ node_data node = VString "matmul")
  ∧ m_num_correlations_stored r3.1 = 1
  ∧ m_num_correlations_found r3.1 = 1
  ∧ m_num_correlations_missed r3.1 = 0
  ∧ m_correlation_map r3.1 = ∅.
Proof.
  intros Htrace Hkernel Hmap Hstored Hfound Hmissed Hpush Hpop Hname
         Henter Hid Hleave Hact Hrid Hdur node r1 r2 r3.
  assert (H1 : r1 = (set_num_correlations_stored 1
                       (push_correlation 42 (Some node) s),
                     begin tid_a (m_api_attr s) (VString "matmul") c)).
  { unfold r1. rewrite hip_api_callback_enter by done.
    by rewrite Hname, Hid, Hstored. }
  assert (H2 : r2 = (r1.1, end_ tid_a (m_api_attr s) r1.2)).
  { unfold r2. rewrite hip_api_callback_exit by done. by rewrite H1. }
  destruct (end_after_begin tid_a (m_api_attr s) (VString "matmul") c r1.2)
    as [Hctx _]; [by rewrite H1|].
  assert (Hl : m_correlation_map r2.1 !! correlation_id record = Some (Some node)).
  { rewrite H2, H1, Hrid. cbn [fst]. apply lookup_insert_eq. }
  assert (Hp2 : processed r2.2 = processed c).
  { rewrite H2. cbn [snd]. rewrite end_processed. by rewrite H1. }
  destruct (rt_activity_callback_single tid_rt record status size r2.1 r2.2 Hact)
    as [Hs Hp].
  fold r3 in Hs, Hp. rewrite (pop_hit _ _ _ Hl) in Hs, Hp.
  split; [|split; [|split]].
  - rewrite H1. cbn [fst snd]. repeat split.
    + unfold begin. cbn [thread_ctx set_thread_ctx]. apply lookup_insert_eq.
    + unfold push_correlation.
      cbn [m_correlation_map set_num_correlations_stored set_correlation_map update].
      by rewrite Hmap, insert_empty.
  - by rewrite H2.
  - eexists. unfold dispatched. rewrite Hp, Hp2, drop_app_length.
    split; [|split; [|split]].
    + f_equal. f_equal. f_equal. by rewrite H2, H1.
    + cbn [sv_fields]. unfold record_fields. rewrite Hdur.
      change (wrap64 500) with 500.
      rewrite H2, H1. cbn [fst].
      apply elem_of_app. left. set_solver.
    + done.
    + done.
  - rewrite Hs, H2, H1, Hrid. cbn [fst snd].
    cbn [counted m_num_correlations_stored m_num_correlations_found
         m_num_correlations_missed m_correlation_map push_correlation
         set_num_correlations_found set_num_correlations_stored
         set_correlation_map set_flush_counters update].
    rewrite Hfound, Hmissed, Hmap.
    repeat split.
Qed.

End WithExternals.

End FlushPipeline.

(** ** Registration *)

Module Registration.

Import RocTracer Notions.

Lemma create_attribute_frame name type flags meta c :
  let r := create_attribute name type flags meta c in
  connections r.2 = connections c ∧ log r.2 = log c
  ∧ verbosity r.2 = verbosity c ∧ processed r.2 = processed c
  ∧ thread_ctx r.2 = thread_ctx c.
Proof.
  unfold create_attribute. by destruct (registry c !! name).
Qed.

(** creating the attributes of an instance changes nothing else of it *)
Lemma create_callback_attributes_frame s c :
  let s' := (create_callback_attributes s c).1 in
  m_channel s' = m_channel s
  ∧ m_correlation_map s' = m_correlation_map s
  ∧ m_num_records s' = m_num_records s
  ∧ m_num_flushed s' = m_num_flushed s
  ∧ m_num_flushes s' = m_num_flushes s
  ∧ m_num_correlations_stored s' = m_num_correlations_stored s
  ∧ m_num_correlations_found s' = m_num_correlations_found s
  ∧ m_num_correlations_missed s' = m_num_correlations_missed s.
Proof.
  unfold create_callback_attributes.
  by destruct (create_attribute _ _ _ _ c).
Qed.

Lemma create_activity_attributes_frame s c :
  let s' := (create_activity_attributes s c).1 in
  m_channel s' = m_channel s
  ∧ m_correlation_map s' = m_correlation_map s
  ∧ m_num_records s' = m_num_records s
  ∧ m_num_flushed s' = m_num_flushed s
  ∧ m_num_flushes s' = m_num_flushes s
  ∧ m_num_correlations_stored s' = m_num_correlations_stored s
  ∧ m_num_correlations_found s' = m_num_correlations_found s
  ∧ m_num_correlations_missed s' = m_num_correlations_missed s.
Proof.
  unfold create_activity_attributes.
  repeat lazymatch goal with
         | |- context [match create_attribute ?n ?t ?f ?m ?c with _ => _ end] =>
             destruct (create_attribute n t f m c)
         end.
  by repeat split.
Qed.

(** a new instance is bound to the channel it is made for, with an
    empty correlation map and all counters at zero *)
Lemma RocTracerService_new_fresh c channel :
  let s := (RocTracerService_new c channel).1 in
  m_channel s = channel
  ∧ m_correlation_map s = ∅
  ∧ m_num_records s = 0 ∧ m_num_flushed s = 0 ∧ m_num_flushes s = 0
  ∧ m_num_correlations_stored s = 0
  ∧ m_num_correlations_found s = 0
  ∧ m_num_correlations_missed s = 0.
Proof.
  unfold RocTracerService_new.
  match goal with
  | |- context [create_callback_attributes ?s0 c] =>
      pose proof (create_callback_attributes_frame s0 c) as H1;
      destruct (create_callback_attributes s0 c) as [s1 c1]
  end.
  pose proof (create_activity_attributes_frame s1 c1) as H2.
  cbn zeta in *. cbn [fst] in H1.
  destruct H2 as (-> & -> & -> & -> & -> & -> & -> & ->).
  destruct H1 as (-> & -> & -> & -> & -> & -> & -> & ->).
  by repeat split.
Qed.

Lemma counters_in_range_new c channel :
  counters_in_range (RocTracerService_new c channel).1.
Proof.
  destruct (RocTracerService_new_fresh c channel)
    as (_ & _ & H1 & H2 & H3 & H4 & H5 & H6).
  cbn zeta in *. unfold counters_in_range, UINT_MAX.
  rewrite H1, H2, H3, H4, H5, H6. lia.
Qed.

(** whatever instance is active, registering puts a new instance, made
    for the registering channel, in its place *)
Lemma register_roctracer_new active c channel :
  ∃ c0, (register_roctracer active c channel).1
        = Some (RocTracerService_new c0 channel).1.
Proof.
  unfold register_roctracer.
  destruct active; destruct (RocTracerService_new _ channel) eqn:E;
    eexists; simpl; by rewrite E.
Qed.

(** C9, on the code: [channel_b] registers while the instance of
    [channel_a] is active.  The message that announces the guard is
    written, yet the registration goes on: [s_instance] is replaced by
    a new instance bound to [channel_b], and the [finish_evt] callbacks
    of both channels are connected to it, so that the second of them to
    run finds [s_instance] null. *)
Theorem second_registration_replaces :
  let active := Scenario.first_registration.1 in
  let r := Scenario.second_registration in
  m_channel <$> active = Some Scenario.channel_a
  ∧ log r.2
    = [ [ LStr "a"; LStr ": Registered roctracer service.";
          LStr " Activity tracing is "; LStr "on" ];
        [ LStr "b"; LStr ": roctracer service is already active, disabling!" ];
        [ LStr "b"; LStr ": Registered roctracer service.";
          LStr " Activity tracing is "; LStr "on" ] ]
  ∧ m_channel <$> r.1 = Some Scenario.channel_b
  ∧ r.1 ≠ active
  ∧ from_option
      (λ a, ¬ reregistration_guarded a Scenario.first_registration.2
                                     Scenario.channel_b)
      False active
  ∧ filter (λ x, x.1.2 = finish_evt) (connections r.2)
    = [ (1, finish_evt, "RocTracerService::finish_cb");
        (2, finish_evt, "RocTracerService::finish_cb") ]
  ∧ is_Some (finish_evt_callback r.1 r.2 Scenario.channel_a)
  ∧ (finish_evt_callback r.1 r.2 Scenario.channel_a
     ≫= λ p, finish_evt_callback p.1 p.2 Scenario.channel_b) = None.
Proof.
  cbn zeta.
  assert (Ha : m_channel <$> Scenario.first_registration.1
               = Some Scenario.channel_a) by (vm_compute; reflexivity).
  assert (Hb : m_channel <$> Scenario.second_registration.1
               = Some Scenario.channel_b) by (vm_compute; reflexivity).
  assert (Hne : Scenario.second_registration.1 ≠ Scenario.first_registration.1).
  { intros Heq. rewrite Heq, Ha in Hb. discriminate Hb. }
  split; [exact Ha|]. split; [vm_compute; reflexivity|].
  split; [exact Hb|]. split; [exact Hne|].
  split.
  { destruct Scenario.first_registration.1 as [a|] eqn:E; [|discriminate Ha].
    cbn [from_option]. unfold reregistration_guarded. intros Hg. apply Hne.
    unfold Scenario.second_registration. rewrite E. exact Hg. }
  split; [vm_compute; reflexivity|].
  split.
  { destruct Scenario.second_registration.1 as [b|]; [|discriminate Hb].
    eexists. reflexivity. }
  destruct Scenario.second_registration.1 as [b|]; [|discriminate Hb].
  reflexivity.
Qed.

End Registration.

(** ** The umpire service *)

Module UmpireFacts.

Import Umpire Notions.

(** a builder keeps the fields that fit its capacity, in append order *)
Lemma append_fields_spec fs : ∀ b,
  (length (sb_fields b) ≤ sb_capacity b)%nat →
  sb_fields (append_fields fs b) = take (sb_capacity b) (sb_fields b ++ fs)
  ∧ sb_capacity (append_fields fs b) = sb_capacity b
  ∧ sb_branch (append_fields fs b) = sb_branch b.
Proof.
  unfold append_fields.
  induction fs as [|[a v] fs IH]; intros b Hb; cbn [fold_left fst snd].
  - rewrite app_nil_r, take_ge by done. done.
  - unfold append at 2 4 6.
    destruct (decide (length (sb_fields b) < sb_capacity b)%nat) as [Hlt|Hge].
    + destruct (IH (mkSnapshotBuilder (sb_capacity b) (sb_fields b ++ [(a, v)])
                      (sb_branch b) (sb_skipped b))) as (-> & -> & ->).
      { cbn [sb_fields sb_capacity]. rewrite length_app. simpl. lia. }
      cbn [sb_fields sb_capacity sb_branch].
      by rewrite <- app_assoc.
    + destruct (IH (mkSnapshotBuilder (sb_capacity b) (sb_fields b)
                      (sb_branch b) (S (sb_skipped b)))) as (-> & -> & ->).
      { done. }
      cbn [sb_fields sb_capacity sb_branch].
      rewrite !take_app_le by lia. done.
Qed.

Lemma append_branch_fields p b :
  sb_fields (append_branch p b) = sb_fields b
  ∧ sb_capacity (append_branch p b) = sb_capacity b.
Proof. unfold append_branch. by destruct (sb_branch b). Qed.

(** the fields of the record of one allocator: the context, then the
    five statistics, cut at the capacity of 64 *)
Lemma allocator_record_fields s name alloc context :
  sv_fields (view (allocator_record s name alloc context))
  = take 64 (sv_fields context ++ allocator_fields s name alloc).
Proof.
  unfold allocator_record, make_record, append_view, view. cbn [sv_fields].
  rewrite (proj1 (append_branch_fields _ _)).
  destruct (append_fields_spec (sv_fields context) (FixedSizeSnapshotRecord 64))
    as (Hf & Hc & _); [simpl; lia|].
  cbn [FixedSizeSnapshotRecord sb_fields sb_capacity app] in Hf, Hc.
  match goal with
  | |- sb_fields (append_fields ?fs ?b) = _ =>
      destruct (append_fields_spec fs b) as (-> & _ & _)
  end.
  - rewrite (proj1 (append_branch_fields _ _)), Hf.
    rewrite (proj2 (append_branch_fields _ _)), Hc, length_take. lia.
  - rewrite !(proj2 (append_branch_fields _ _)), Hc.
    rewrite (proj1 (append_branch_fields _ _)), Hf.
    change (take 5 (zip (allocator_attr s) (allocator_data name alloc)))
      with (allocator_fields s name alloc).
    destruct (decide (length (sv_fields context) ≤ 64)%nat) as [Hle|Hgt].
    + by rewrite (take_ge (sv_fields context)).
    + rewrite (take_app_le (take 64 (sv_fields context)))
        by (rewrite length_take; lia).
      rewrite (take_app_le (sv_fields context)) by lia.
      by rewrite take_take.
Qed.

(** the loop over the allocators: the two sums, reduced modulo 2^64,
    and one record per allocator when per-allocator statistics are on *)
Lemma allocator_loop_spec s rm channel context names : ∀ ts tc c,
  0 ≤ ts ≤ UINT64_MAX → 0 ≤ tc ≤ UINT64_MAX →
  allocator_loop s rm channel context names ts tc c
  = (wrap64 (ts + foldr Z.add 0
                    (map (λ n, getCurrentSize (getAllocator rm n)) names)),
     wrap64 (tc + foldr Z.add 0
                    (map (λ n, getAllocationCount (getAllocator rm n)) names)),
     set_processed
       (processed c
        ++ (if m_per_allocator_stats s
            then map (λ name, (chn_id channel, SnapshotView_empty,
                               view (allocator_record s name
                                       (getAllocator rm name) context)))
                     names
            else [])) c).
Proof.
  induction names as [|name names IH]; intros ts tc c Hts Htc;
    cbn [allocator_loop map foldr].
  - rewrite !Z.add_0_r, !wrap64_small by done.
    destruct (m_per_allocator_stats s);
      by rewrite app_nil_r; destruct c.
  - rewrite IH by apply wrap64_range.
    rewrite !wrap64_add_l, !Z.add_assoc.
    unfold process_allocator, process_snapshot.
    destruct (m_per_allocator_stats s); cbn [processed set_processed].
    + rewrite <- app_assoc. reflexivity.
    + reflexivity.
Qed.

Lemma registry_wf_empty c : registry c = ∅ → registry_wf c.
Proof. intros H name a. by rewrite H, lookup_empty. Qed.

(** the registry returns an attribute of the name asked for, and stays
    well-formed *)
Lemma create_attribute_wf name type flags meta c :
  registry_wf c →
  registry_wf (create_attribute name type flags meta c).2
  ∧ attr_name (create_attribute name type flags meta c).1 = name.
Proof.
  intros Hwf. unfold create_attribute.
  destruct (registry c !! name) as [a|] eqn:E; cbn [fst snd].
  - split; [done|]. by apply Hwf.
  - split; [|done]. intros n a'. cbn [registry set_registry].
    rewrite lookup_insert. case_decide as Hn.
    + subst n. by intros [= <-].
    + apply Hwf.
Qed.

(** the service names its two totals umpire.total.size and
    umpire.total.count *)
Lemma UmpireService_new_names agg c channel :
  registry_wf c →
  let s := (UmpireService_new agg c channel).1 in
  attr_name (m_total_size_attr s) = "umpire.total.size"
  ∧ attr_name (m_total_count_attr s) = "umpire.total.count"
  ∧ m_per_allocator_stats s
    = config_get_bool channel "umpire" s_configdata "per_allocator_statistics".
Proof.
  intros Hwf. unfold UmpireService_new, create_attributes.
  repeat lazymatch goal with
         | |- context [match create_attribute ?n ?t ?f ?m ?c with _ => _ end] =>
             let Hw := fresh "Hw" in
             let Hn := fresh "Hn" in
             destruct (create_attribute_wf n t f m c) as [Hw Hn];
             [assumption|];
             destruct (create_attribute n t f m c) as [? ?];
             cbn [fst snd] in Hw, Hn
         end.
  cbn. auto.
Qed.

(** C10: whatever the per-allocator setting, snapshot appends two
    fields to the builder it is given, umpire.total.size with the sum of
    the current sizes and umpire.total.count with the sum of the
    allocation counts over all allocators (sums of [uint64_t]); records
    per allocator (name, actual size, current size, high watermark,
    count, after the context) go through process_snapshot only when
    per-allocator statistics are on, one for each allocator. *)
Theorem umpire_snapshot_totals (agg : Attribute) (c0 : Caliper)
    (channel0 : Channel) (rm : ResourceManager) (tid : Z) (c : Caliper)
    (channel : Channel) (info : SnapshotView) (snapshot_rec : SnapshotBuilder) :
  registry_wf c0 →
  let s := (UmpireService_new agg c0 channel0).1 in
  let r := snapshot s rm tid c channel info snapshot_rec in
  let context := view (snapshot_context s tid c info) in
  let total_size := (m_total_size_attr s, VUint (wrap64 (sum_current_size rm))) in
  let total_count :=
    (m_total_count_attr s, VUint (wrap64 (sum_allocation_count rm))) in
  attr_name (m_total_size_attr s) = "umpire.total.size"
  ∧ attr_name (m_total_count_attr s) = "umpire.total.count"
  ∧ r.2 = append total_count.1 total_count.2
            (append total_size.1 total_size.2 snapshot_rec)
  ∧ ((length (sb_fields snapshot_rec) + 2 ≤ sb_capacity snapshot_rec)%nat →
     sb_fields r.2 = sb_fields snapshot_rec ++ [total_size; total_count])
  ∧ dispatched c r.1
    = (if m_per_allocator_stats s
       then map (λ name, (chn_id channel, SnapshotView_empty,
                          view (allocator_record s name
                                  (getAllocator rm name) context)))
                (getAllocatorNames rm)
       else [])
  ∧ length (dispatched c r.1)
    = (if m_per_allocator_stats s then length (getAllocatorNames rm) else 0%nat)
  ∧ ∀ name,
      sv_fields (view (allocator_record s name (getAllocator rm name) context))
      = take 64 (sv_fields context
                 ++ allocator_fields s name (getAllocator rm name)).
Proof.
  intros Hwf s r context total_size total_count.
  destruct (UmpireService_new_names agg c0 channel0 Hwf) as (Hn1 & Hn2 & _).
  fold s in Hn1, Hn2.
  assert (Hr : r = (set_processed
                      (processed c
                       ++ (if m_per_allocator_stats s
                           then map (λ name, (chn_id channel, SnapshotView_empty,
                                              view (allocator_record s name
                                                      (getAllocator rm name) context)))
                                    (getAllocatorNames rm)
                           else [])) c,
                    append total_count.1 total_count.2
                      (append total_size.1 total_size.2 snapshot_rec))).
  { unfold r, snapshot. fold context.
    rewrite allocator_loop_spec by (unfold UINT64_MAX; lia).
    rewrite !Z.add_0_l. reflexivity. }
  rewrite Hr. cbn [fst snd].
  split; [done|]. split; [done|]. split; [done|].
  split; [|split; [|split]].
  - intros Hroom.
    assert (H1 : append total_size.1 total_size.2 snapshot_rec
                 = mkSnapshotBuilder (sb_capacity snapshot_rec)
                     (sb_fields snapshot_rec ++ [total_size])
                     (sb_branch snapshot_rec) (sb_skipped snapshot_rec)).
    { unfold append. by rewrite decide_True by lia. }
    rewrite H1. unfold append. cbn [sb_fields sb_capacity].
    rewrite decide_True by (rewrite length_app; simpl; lia).
    cbn [sb_fields]. by rewrite <- app_assoc.
  - unfold dispatched. cbn [processed set_processed].
    by rewrite drop_app_length.
  - unfold dispatched. cbn [processed set_processed].
    rewrite drop_app_length.
    destruct (m_per_allocator_stats s); [by rewrite length_map|done].
  - intros name. apply allocator_record_fields.
Qed.

End UmpireFacts.

(** ** The properties on the concrete run *)

Module Runs.

Import RocTracer Notions Scenario.
Import CorrelationStore FlushPipeline Registration UmpireFacts.

(** C1 on the run: node_a stored under 42, then a store and a take
    under 7, then two takes under 42. *)
Lemma take_after_store_run :
  Forall (λ o, op_id o ≠ 42) [Store 7 (Some node_b); Take 7]
  ∧ (pop_correlation 42
       (run_ops [Store 7 (Some node_b); Take 7]
                (push_correlation 42 (Some node_a) service))).1
    = Some node_a.
Proof.
  assert (H : Forall (λ o, op_id o ≠ 42) [Store 7 (Some node_b); Take 7]).
  { repeat constructor; simpl; lia. }
  split; [exact H|].
  exact (proj1 (take_after_store 42 (Some node_a) _ service H)).
Defined.

(** C3 on the run: operation 7 on thread_a under id 42, then the
    record of id 42 delivered on thread_rt. *)
Lemma matmul_scenario_run :
  let r1 := hip_api_callback (ext := hip) thread_a 3 7 enter_42 service runtime in
  let r2 := hip_api_callback (ext := hip) thread_a 3 7 exit_42 r1.1 r1.2 in
  let r3 := rt_activity_callback (ext := hip) thread_rt [(record_42, 0)] 64
              r2.1 r2.2 in
  m_num_correlations_stored r3.1 = 1
  ∧ m_num_correlations_found r3.1 = 1
  ∧ m_num_correlations_missed r3.1 = 0.
Proof.
  pose proof (matmul_scenario (ext := hip) thread_a thread_rt 3 7 0 64
                enter_42 exit_42 record_42 service runtime) as H.
  assert (H1 : m_enable_tracing service = true) by (vm_compute; reflexivity).
  assert (H2 : kernel_name (ext := hip) service 7 enter_42 = "")
    by (vm_compute; reflexivity).
  assert (H3 : m_correlation_map service = ∅) by (vm_compute; reflexivity).
  assert (H4 : m_num_correlations_stored service = 0)
    by (vm_compute; reflexivity).
  assert (H5 : m_num_correlations_found service = 0)
    by (vm_compute; reflexivity).
  assert (H6 : m_num_correlations_missed service = 0)
    by (vm_compute; reflexivity).
  assert (H7 : 7 ≠ HIP_API_ID___hipPushCallConfiguration (Externals := hip))
    by (vm_compute; discriminate).
  assert (H8 : 7 ≠ HIP_API_ID___hipPopCallConfiguration (Externals := hip))
    by (vm_compute; discriminate).
  assert (H9 : roctracer_op_string (Externals := hip)
                 (ACTIVITY_DOMAIN_HIP_API (Externals := hip)) 7 0 = "matmul")
    by (vm_compute; reflexivity).
  assert (H10 : phase enter_42 = ACTIVITY_API_PHASE_ENTER (Externals := hip))
    by (vm_compute; reflexivity).
  assert (H11 : phase exit_42 ≠ ACTIVITY_API_PHASE_ENTER (Externals := hip))
    by (vm_compute; discriminate).
  assert (H12 : is_activity_record (ext := hip) record_42 = true)
    by (vm_compute; reflexivity).
  specialize (H H1 H2 H3 H4 H5 H6 H7 H8 H9 H10 eq_refl H11 H12 eq_refl eq_refl).
  cbv zeta in H |- *.
  destruct H as (_ & _ & _ & Hs & Hf & Hm & _).
  exact (conj Hs (conj Hf Hm)).
Defined.

(** C4 on the run: the record of id 99 meets an empty map. *)
Lemma miss_builds_record_run :
  length (dispatched runtime
            (rt_activity_callback (ext := hip) thread_rt [(record_99, 0)] 64
               service runtime).2) = 1%nat
  ∧ m_num_correlations_missed
      (rt_activity_callback (ext := hip) thread_rt [(record_99, 0)] 64
         service runtime).1 = 1.
Proof.
  assert (H1 : is_activity_record (ext := hip) record_99 = true)
    by (vm_compute; reflexivity).
  assert (H2 : m_correlation_map service !! correlation_id record_99 = None)
    by (vm_compute; reflexivity).
  assert (H3 : m_num_correlations_missed service = 0)
    by (vm_compute; reflexivity).
  pose proof (miss_builds_record (ext := hip) thread_rt 0 64 record_99
                service runtime H1 H2 H3) as H.
  cbv zeta in H. destruct H as (Hd & Hm & _).
  split; [rewrite Hd; reflexivity | exact Hm].
Defined.

(** C5 on the run: a take of id 99 from the empty map. *)
Lemma take_miss_counts_run :
  pop_correlation 99 service = (None, service)
  ∧ m_num_correlations_missed
      (flush_record (ext := hip) record_99 service runtime).1.2 = 1.
Proof.
  assert (H1 : m_correlation_map service !! correlation_id record_99 = None)
    by (vm_compute; reflexivity).
  assert (H2 : is_activity_record (ext := hip) record_99 = true)
    by (vm_compute; reflexivity).
  assert (H3 : 0 ≤ m_num_correlations_missed service ≤ UINT_MAX)
    by (vm_compute; split; discriminate).
  pose proof (take_miss_counts (ext := hip) record_99 service runtime
                H1 H2 H3) as H.
  cbv zeta in H. destruct H as (Hp & Hm & _).
  split; [exact Hp | exact Hm].
Defined.

(** C6 as stated fails: a buffer holding one record of the HIP API
    domain is not empty and yields no snapshot. *)
Lemma api_record_yields_no_snapshot :
  ¬ one_snapshot_per_record (ext := hip) thread_rt [(record_api, 0)]
      service runtime.
Proof.
  unfold one_snapshot_per_record. intros H.
  specialize (H ltac:(discriminate)).
  vm_compute in H. discriminate H.
Qed.

(** C7 as stated fails: the advance fails on the first of two activity
    records; one record is left behind and the flush reports none
    skipped. *)
Lemma remainder_not_reported :
  ¬ remainder_reported_as_skipped (ext := hip) thread_rt
      [(record_42, 1); (record_99, 0)] service runtime.
Proof.
  unfold remainder_reported_as_skipped.
  assert (H : reported_skipped (ext := hip) thread_rt
                [(record_42, 1); (record_99, 0)] service runtime = 0)
    by (vm_compute; reflexivity).
  rewrite H. simpl. lia.
Qed.

(** C8 on the run: an empty buffer delivered to the new service. *)
Lemma empty_buffer_flush_run :
  counters_in_range service
  ∧ m_num_flushes (rt_activity_callback (ext := hip) thread_rt [] 0
                     service runtime).1 = 1
  ∧ dispatched runtime
      (rt_activity_callback (ext := hip) thread_rt [] 0 service runtime).2 = [].
Proof.
  assert (H : counters_in_range service) by apply counters_in_range_new.
  pose proof (empty_buffer_flush (ext := hip) thread_rt 0 service runtime H)
    as H0.
  cbv zeta in H0. destruct H0 as (Hd & _ & Hf & _).
  split; [exact H|]. split; [|exact Hd].
  rewrite Hf. vm_compute. reflexivity.
Defined.

(** C10 on the run: two allocators, a builder with room for eight
    fields. *)
Lemma umpire_snapshot_totals_run :
  registry_wf runtime0
  ∧ map (λ f, (attr_name f.1, f.2))
        (sb_fields (Umpire.snapshot umpire_service allocators thread_a runtime0
                      channel_a SnapshotView_empty
                      (FixedSizeSnapshotRecord 8)).2)
    = [ ("umpire.total.size", VUint 1536); ("umpire.total.count", VUint 5) ]
  ∧ length (dispatched runtime0
              (Umpire.snapshot umpire_service allocators thread_a runtime0
                 channel_a SnapshotView_empty (FixedSizeSnapshotRecord 8)).1)
    = 2%nat.
Proof.
  assert (H : registry_wf runtime0) by (by apply registry_wf_empty).
  pose proof (umpire_snapshot_totals Attribute_invalid runtime0 channel_a
                allocators thread_a runtime0 channel_a SnapshotView_empty
                (FixedSizeSnapshotRecord 8) H) as H0.
  cbv zeta in H0. destruct H0 as (_ & _ & _ & Hf & _ & Hl & _).
  split; [exact H|]. split.
  - unfold umpire_service. rewrite Hf by (simpl; lia).
    vm_compute. reflexivity.
  - unfold umpire_service. rewrite Hl. vm_compute. reflexivity.
Defined.

End Runs.

(** ** The flush as a function of the records it reaches *)

Module FlushExact.

Import RocTracer Notions Accounting CorrelationStore FlushPipeline.

Lemma taken_node_pop id s :
  (pop_correlation id s).1 = taken_node (m_correlation_map s) id.
Proof.
  unfold pop_correlation, taken_node.
  by destruct (m_correlation_map s !! id).
Qed.

(** the service after the take and the count for one record *)
Lemma counted_pop id s :
  counted (pop_correlation id s).1 (pop_correlation id s).2
  = update s (m_num_records s) (m_num_flushed s) (m_num_flushes s)
      (m_num_correlations_stored s)
      (match taken_node (m_correlation_map s) id with
       | Some _ => wrap32 (m_num_correlations_found s + 1)
       | None => m_num_correlations_found s
       end)
      (match taken_node (m_correlation_map s) id with
       | Some _ => m_num_correlations_missed s
       | None => wrap32 (m_num_correlations_missed s + 1)
       end)
      (delete id (m_correlation_map s)).
Proof.
  unfold pop_correlation, taken_node.
  destruct (m_correlation_map s !! id) as [[n|]|] eqn:E; simpl;
    try reflexivity.
  rewrite delete_id by done. reflexivity.
Qed.

Section WithExternals.
Context {ext : Externals}.

(** the snapshots depend on the service through its attributes only *)
Lemma drain_snapshots_update s records flushed flushes stored found missed m rs :
  ∀ m0,
  drain_snapshots (update s records flushed flushes stored found missed m) m0 rs
  = drain_snapshots s m0 rs.
Proof.
  induction rs as [|r rs IH]; intros m0; cbn [drain_snapshots]; [done|].
  by rewrite IH.
Qed.

(** the loop, exactly: counters, service and dispatched snapshots *)
Lemma flush_loop_exact buf : ∀ nf nr s c,
  0 ≤ nf ≤ UINT_MAX → 0 ≤ nr ≤ UINT_MAX →
  flush_loop buf nf nr s c
  = (wrap32 (nf + Z.of_nat (length (flushed_records buf))),
     wrap32 (nr + Z.of_nat (length (visited buf))),
     update s (m_num_records s) (m_num_flushed s) (m_num_flushes s)
       (m_num_correlations_stored s)
       (drain_found (m_correlation_map s) (m_num_correlations_found s)
                    (flushed_records buf))
       (drain_missed (m_correlation_map s) (m_num_correlations_missed s)
                     (flushed_records buf))
       (drain_map (m_correlation_map s) (flushed_records buf)),
     set_processed
       (processed c
        ++ tagged s (drain_snapshots s (m_correlation_map s)
                       (flushed_records buf))) c).
Proof.
  induction buf as [|[record status] rest IH]; intros nf nr s c Hnf Hnr.
  - cbn [flush_loop]. unfold flushed_records. cbn [visited filter length].
    rewrite !Z.add_0_r, !wrap32_small by done.
    cbn [drain_found drain_missed drain_map foldl drain_snapshots tagged map].
    rewrite app_nil_r, set_processed_id. by destruct s.
  - rewrite flush_loop_cons, flushed_records_cons. cbn [visited].
    destruct (is_activity_record record) eqn:Hact.
    + rewrite flush_record_activity by done.
      rewrite filter_cons_True by done. rewrite filter_nil.
      rewrite counted_pop, taken_node_pop.
      destruct (decide (status ≠ 0)) as [Hfail|Hok].
      * cbn [app length drain_found drain_missed drain_map foldl
             drain_snapshots tagged map].
        repeat apply (f_equal2 pair); try reflexivity; f_equal; lia.
      * rewrite IH by apply wrap32_range.
        rewrite !wrap32_add_l.
        cbn [app length drain_found drain_missed drain_map foldl
             drain_snapshots].
        unfold tagged, process_snapshot.
        cbn [map processed set_processed m_correlation_map update
             m_num_correlations_found m_num_correlations_missed
             m_num_records m_num_flushed m_num_flushes
             m_num_correlations_stored m_channel].
        rewrite <- app_assoc, drain_snapshots_update.
        repeat apply (f_equal2 pair); try reflexivity; f_equal; lia.
    + rewrite flush_record_skip by done.
      rewrite filter_cons_False by (by rewrite Hact). rewrite filter_nil.
      destruct (decide (status ≠ 0)) as [Hfail|Hok].
      * cbn [app length drain_found drain_missed drain_map foldl
             drain_snapshots tagged map].
        rewrite app_nil_r, set_processed_id.
        repeat apply (f_equal2 pair); try (by destruct s); f_equal; lia.
      * rewrite IH by apply wrap32_range.
        rewrite !wrap32_add_l. cbn [app length].
        repeat apply (f_equal2 pair); try reflexivity; f_equal; lia.
Qed.

Lemma flush_activity_records_exact tid buf s c :
  (flush_activity_records tid buf s c).1 = after_flush s buf
  ∧ processed (flush_activity_records tid buf s c).2
    = processed c ++ tagged s (drain_snapshots s (m_correlation_map s)
                                 (flushed_records buf)).
Proof.
  unfold flush_activity_records.
  rewrite flush_loop_exact by (unfold UINT_MAX; lia).
  cbn [fst snd]. split.
  - unfold after_flush, set_flush_counters.
    cbn [update m_num_records m_num_flushed m_num_flushes
         m_num_correlations_stored m_num_correlations_found
         m_num_correlations_missed m_correlation_map].
    by rewrite !Z.add_0_l, !wrap32_add_r.
  - rewrite end_processed.
    destruct (decide _); by rewrite ?Log_processed.
Qed.


End WithExternals.

(** *** Facts about the drain functions *)

Lemma drain_map_cons m r rs :
  drain_map m (r :: rs) = drain_map (delete (correlation_id r) m) rs.
Proof. reflexivity. Qed.

Lemma drain_map_lookup rs : ∀ m id,
  drain_map m rs !! id
  = if decide (id ∈ map correlation_id rs) then None else m !! id.
Proof.
  induction rs as [|r rs IH]; intros m id.
  - cbn. rewrite decide_False; [done|]. apply not_elem_of_nil.
  - rewrite drain_map_cons, IH. cbn [map].
    destruct (decide (id = correlation_id r)) as [->|Hne].
    + rewrite lookup_delete_eq.
      rewrite (decide_True (P := correlation_id r ∈ _ :: _))
        by apply list_elem_of_here.
      by destruct (decide _).
    + rewrite lookup_delete_ne by done.
      destruct (decide (id ∈ map correlation_id rs)) as [Hin|Hout].
      * rewrite decide_True; [done|]. by apply list_elem_of_further.
      * rewrite decide_False; [done|].
        intros [?|?]%elem_of_cons; done.
Qed.

Lemma drain_map_app m l1 l2 :
  drain_map m (l1 ++ l2) = drain_map (drain_map m l1) l2.
Proof. unfold drain_map. apply foldl_app. Qed.

Lemma drain_found_app l1 : ∀ m f l2,
  drain_found m f (l1 ++ l2)
  = drain_found (drain_map m l1) (drain_found m f l1) l2.
Proof.
  induction l1 as [|r l1 IH]; intros m f l2; [done|].
  cbn [app drain_found]. by rewrite IH, drain_map_cons.
Qed.

Lemma drain_missed_app l1 : ∀ m f l2,
  drain_missed m f (l1 ++ l2)
  = drain_missed (drain_map m l1) (drain_missed m f l1) l2.
Proof.
  induction l1 as [|r l1 IH]; intros m f l2; [done|].
  cbn [app drain_missed]. by rewrite IH, drain_map_cons.
Qed.

Lemma hits_le rs : ∀ m, (hits m rs ≤ length rs)%nat.
Proof.
  induction rs as [|r rs IH]; intros m; cbn [hits length]; [done|].
  specialize (IH (delete (correlation_id r) m)).
  destruct (taken_node m (correlation_id r)); lia.
Qed.

Lemma drain_found_hits rs : ∀ m f,
  0 ≤ f ≤ UINT_MAX →
  drain_found m f rs = wrap32 (f + Z.of_nat (hits m rs)).
Proof.
  induction rs as [|r rs IH]; intros m f Hf; cbn [drain_found hits].
  - by rewrite Z.add_0_r, wrap32_small.
  - destruct (taken_node m (correlation_id r)).
    + rewrite IH by apply wrap32_range. rewrite wrap32_add_l.
      f_equal. lia.
    + rewrite IH by done. f_equal.
Qed.

Lemma drain_missed_hits rs : ∀ m f,
  0 ≤ f ≤ UINT_MAX →
  drain_missed m f rs
  = wrap32 (f + (Z.of_nat (length rs) - Z.of_nat (hits m rs))).
Proof.
  induction rs as [|r rs IH]; intros m f Hf; cbn [drain_missed hits length].
  - by rewrite Z.add_0_r, wrap32_small.
  - destruct (taken_node m (correlation_id r)).
    + rewrite IH by done. f_equal. lia.
    + rewrite IH by apply wrap32_range. rewrite wrap32_add_l.
      f_equal. lia.
Qed.

End FlushExact.

(** ** What a delivery does to counters and store *)

Module FlushProperties.

Import RocTracer Notions Accounting CorrelationStore FlushPipeline FlushExact.

Section WithExternals.
Context {ext : Externals}.

Lemma rt_activity_callback_service tid buf size s c :
  (rt_activity_callback tid buf size s c).1 = after_flush s buf.
Proof.
  destruct (rt_activity_callback_flush tid buf size s c) as (-> & _).
  apply flush_activity_records_exact.
Qed.

Lemma rt_activity_callback_processed tid buf size s c :
  processed (rt_activity_callback tid buf size s c).2
  = processed c ++ tagged s (drain_snapshots s (m_correlation_map s)
                               (flushed_records buf)).
Proof.
  destruct (rt_activity_callback_flush tid buf size s c) as (_ & -> & _).
  apply flush_activity_records_exact.
Qed.

(** X2: every record a delivery flushes is counted once, as found or as
    missed: with [h] the number of flushed records whose take finds a
    node, found goes up by [h], missed by the rest, and records-flushed
    by their total (all modulo 2^32). *)
Theorem each_flushed_record_counted_once (tid size : Z) (buf : activity_buffer)
    (s : RocTracerService) (c : Caliper) :
  counters_in_range s →
  let s' := (rt_activity_callback tid buf size s c).1 in
  let n := length (flushed_records buf) in
  let h := hits (m_correlation_map s) (flushed_records buf) in
  (h ≤ n)%nat
  ∧ m_num_correlations_found s'
    = wrap32 (m_num_correlations_found s + Z.of_nat h)
  ∧ m_num_correlations_missed s'
    = wrap32 (m_num_correlations_missed s + Z.of_nat (n - h))
  ∧ m_num_flushed s' = wrap32 (m_num_flushed s + Z.of_nat n)
  ∧ m_num_correlations_stored s' = m_num_correlations_stored s.
Proof.
  intros (_ & _ & _ & _ & Hf & Hm) s' n h.
  assert (Hle : (h ≤ n)%nat) by apply hits_le.
  unfold s'. rewrite rt_activity_callback_service. unfold after_flush.
  cbn [update m_num_flushed m_num_correlations_stored
       m_num_correlations_found m_num_correlations_missed].
  rewrite drain_found_hits, drain_missed_hits by done.
  fold n h. repeat split; [done|]. f_equal. lia.
Qed.

(** X3: a delivery never adds to the correlation map: afterwards the
    ids of the flushed records have no entry, and every other id has
    the entry it had. *)
Theorem flush_only_removes (tid size : Z) (buf : activity_buffer)
    (s : RocTracerService) (c : Caliper) :
  let s' := (rt_activity_callback tid buf size s c).1 in
  m_correlation_map s' ⊆ m_correlation_map s
  ∧ (∀ r, r ∈ flushed_records buf →
          m_correlation_map s' !! correlation_id r = None)
  ∧ (∀ id, id ∉ map correlation_id (flushed_records buf) →
           m_correlation_map s' !! id = m_correlation_map s !! id).
Proof.
  intros s'. unfold s'. rewrite rt_activity_callback_service.
  unfold after_flush. cbn [update m_correlation_map].
  split; [|split].
  - apply map_subseteq_spec. intros id x. rewrite drain_map_lookup.
    by destruct (decide _).
  - intros r Hr. rewrite drain_map_lookup, decide_True; [done|].
    by apply (list_elem_of_fmap_2 correlation_id).
  - intros id Hid. by rewrite drain_map_lookup, decide_False.
Qed.

Lemma flushed_records_two r1 r2 status :
  is_activity_record r1 = true → is_activity_record r2 = true →
  flushed_records [(r1, 0); (r2, status)] = [r1; r2].
Proof.
  intros H1 H2. unfold flushed_records. cbn [visited].
  rewrite (decide_False (P := 0 ≠ 0)) by (intros ?; done).
  assert (Hv : (if decide (status ≠ 0) then [] else @nil roctracer_record_t)
               = []) by (by destruct (decide _)).
  rewrite Hv. rewrite !filter_cons_True by done. done.
Qed.

(** X4: a stored node is handed out once.  When two activity records of
    one delivery carry the same correlation id and a node is stored
    under it, the snapshot of the first has the node as branch, that of
    the second has none; one is counted as found, the other as
    missed. *)
Theorem second_delivery_misses (tid size status : Z)
    (r1 r2 : roctracer_record_t) (node : Node)
    (s : RocTracerService) (c : Caliper) :
  is_activity_record r1 = true →
  is_activity_record r2 = true →
  correlation_id r2 = correlation_id r1 →
  m_correlation_map s !! correlation_id r1 = Some (Some node) →
  let r := rt_activity_callback tid [(r1, 0); (r2, status)] size s c in
  dispatched c r.2
  = tagged s [ mkSnapshotView (record_fields s r1) (Some node);
               mkSnapshotView (record_fields s r2) None ]
  ∧ m_num_correlations_found r.1
    = wrap32 (m_num_correlations_found s + 1)
  ∧ m_num_correlations_missed r.1
    = wrap32 (m_num_correlations_missed s + 1)
  ∧ m_correlation_map r.1 = delete (correlation_id r1) (m_correlation_map s).
Proof.
  intros H1 H2 Hid Hl r.
  assert (Ht1 : taken_node (m_correlation_map s) (correlation_id r1)
                = Some node) by (unfold taken_node; by rewrite Hl).
  assert (Ht2 : taken_node (delete (correlation_id r1) (m_correlation_map s))
                  (correlation_id r1) = None)
    by (unfold taken_node; by rewrite lookup_delete_eq).
  unfold r, dispatched.
  rewrite rt_activity_callback_processed, rt_activity_callback_service,
    drop_app_length, flushed_records_two by done.
  unfold after_flush. rewrite flushed_records_two by done.
  cbn [drain_snapshots drain_found drain_missed drain_map foldl update
       m_num_correlations_found m_num_correlations_missed m_correlation_map].
  rewrite Hid, Ht1, Ht2. repeat split.
  apply map_eq. intros i.
  destruct (decide (i = correlation_id r1)) as [->|Hne].
  - by rewrite !lookup_delete_eq.
  - by rewrite !lookup_delete_ne.
Qed.

Lemma visited_app_ok b1 b2 :
  Forall (λ x : roctracer_record_t * Z, x.2 = 0) b1 →
  visited (b1 ++ b2) = visited b1 ++ visited b2.
Proof.
  intros H. induction H as [|[r st] b1 Hr H IH]; [done|].
  cbn [snd] in Hr. subst st. cbn [app visited].
  rewrite !(decide_False (P := 0 ≠ 0)) by (intros ?; done).
  by rewrite IH.
Qed.

Lemma flushed_records_app_ok b1 b2 :
  Forall (λ x : roctracer_record_t * Z, x.2 = 0) b1 →
  flushed_records (b1 ++ b2) = flushed_records b1 ++ flushed_records b2.
Proof.
  intros H. unfold flushed_records.
  by rewrite visited_app_ok, filter_app.
Qed.

Lemma drain_snapshots_app s l1 : ∀ m l2,
  drain_snapshots s m (l1 ++ l2)
  = drain_snapshots s m l1 ++ drain_snapshots s (drain_map m l1) l2.
Proof.
  induction l1 as [|r l1 IH]; intros m l2; [done|].
  cbn [app drain_snapshots]. by rewrite IH, drain_map_cons.
Qed.

(** X5: a buffer delivered in two parts gives what it gives in one.
    When no advance fails in the first part, delivering [b1] and then
    [b2] dispatches the same snapshots in the same order as delivering
    [b1 ++ b2], and leaves the same correlation map and the same
    counters, except that two flushes are counted instead of one. *)
Theorem split_delivery (tid size size1 size2 : Z) (b1 b2 : activity_buffer)
    (s : RocTracerService) (c : Caliper) :
  Forall (λ x : roctracer_record_t * Z, x.2 = 0) b1 →
  let one := rt_activity_callback tid (b1 ++ b2) size s c in
  let half := rt_activity_callback tid b1 size1 s c in
  let two := rt_activity_callback tid b2 size2 half.1 half.2 in
  processed two.2 = processed one.2
  ∧ m_correlation_map two.1 = m_correlation_map one.1
  ∧ m_num_correlations_found two.1 = m_num_correlations_found one.1
  ∧ m_num_correlations_missed two.1 = m_num_correlations_missed one.1
  ∧ m_num_correlations_stored two.1 = m_num_correlations_stored one.1
  ∧ m_num_records two.1 = m_num_records one.1
  ∧ m_num_flushed two.1 = m_num_flushed one.1
  ∧ m_num_flushes two.1 = wrap32 (m_num_flushes one.1 + 1).
Proof.
  intros Hok one half two. unfold two, half, one.
  rewrite !rt_activity_callback_processed, !rt_activity_callback_service.
  unfold after_flush.
  cbn [update m_correlation_map m_num_correlations_found
       m_num_correlations_missed m_num_correlations_stored
       m_num_records m_num_flushed m_num_flushes].
  rewrite !flushed_records_app_ok, !visited_app_ok by done.
  rewrite drain_snapshots_update, drain_snapshots_app, drain_map_app,
    drain_found_app, drain_missed_app.
  unfold tagged. cbn [update m_channel].
  rewrite map_app, app_assoc, !length_app, !wrap32_add_l.
  repeat split; f_equal; lia.
Qed.

(** X6: the snapshot of an activity record.  It has six fields, and a
    seventh, the byte count, exactly for a copy, so the builder of
    capacity 8 drops none.  The duration is [end_ns - begin_ns] as a
    [uint64_t]: the difference when [begin_ns <= end_ns], and otherwise
    the difference plus 2^64, never a negative number. *)
Theorem activity_snapshot_layout (record : roctracer_record_t)
    (s : RocTracerService) (c : Caliper) :
  is_activity_record record = true →
  0 ≤ begin_ns record ≤ UINT64_MAX →
  0 ≤ end_ns record ≤ UINT64_MAX →
  let r := flush_record record s c in
  let duration :=
    if decide (begin_ns record ≤ end_ns record)
    then end_ns record - begin_ns record
    else end_ns record - begin_ns record + 2 ^ 64 in
  ∃ v, dispatched c r.2 = tagged s [v]
       ∧ r.1.1 = 1
       ∧ length (sv_fields v)
         = (if decide (op record = HIP_OP_ID_COPY) then 7 else 6)%nat
       ∧ sv_fields v !! 3%nat
         = Some (m_activity_duration_attr s, VUint duration)
       ∧ 0 ≤ duration ≤ UINT64_MAX
       ∧ ((m_activity_bytes_attr s, VUint (bytes record)) ∈ drop 6 (sv_fields v)
          ↔ op record = HIP_OP_ID_COPY).
Proof.
  intros Hact Hb He r duration.
  assert (Hd : wrap64 (end_ns record - begin_ns record) = duration
               ∧ 0 ≤ duration ≤ UINT64_MAX).
  { unfold duration, wrap64, UINT64_MAX in *.
    destruct (decide (begin_ns record ≤ end_ns record)).
    - split; [apply Z.mod_small|]; lia.
    - split; [|lia].
      rewrite <- (Z_mod_plus_full _ 1). apply Z.mod_small. lia. }
  destruct Hd as [Hd Hrange].
  eexists. unfold r, dispatched. rewrite flush_record_activity by done.
  cbn [fst snd process_snapshot processed set_processed].
  rewrite drop_app_length. split; [reflexivity|]. split; [reflexivity|].
  cbn [sv_fields]. unfold record_fields. rewrite Hd.
  destruct (decide (op record = HIP_OP_ID_COPY)) as [Hc|Hc];
    (split; [reflexivity|]); (split; [reflexivity|]); (split; [done|]);
    cbn [app drop].
  - split; [done|]. intros _. apply list_elem_of_here.
  - split; [|done]. intros H%elem_of_nil. done.
Qed.

End WithExternals.

End FlushProperties.

(** ** The API callback *)

Module CallbackProperties.

Import RocTracer Notions Accounting CorrelationStore FlushPipeline FlushExact
  FlushProperties.

(** an end that matches the begin gives back the contexts of all
    threads *)
Lemma end_begin_ctx tid a v c c1 :
  thread_ctx c1 = thread_ctx (begin tid a v c) →
  thread_ctx (end_ tid a c1) = thread_ctx c
  ∧ log (end_ tid a c1) = log c1
  ∧ processed (end_ tid a c1) = processed c1.
Proof.
  intros Hctx. split; [|split; [|apply end_processed]].
  - unfold end_. rewrite Hctx. cbn [begin thread_ctx set_thread_ctx
                                     set_next_node_id].
    rewrite lookup_insert_eq. cbn [node_attr node_parent].
    rewrite decide_True by done.
    destruct (thread_ctx c !! tid) as [p|] eqn:Hp;
      cbn [thread_ctx set_thread_ctx]; rewrite ?Hctx;
      cbn [begin thread_ctx set_thread_ctx set_next_node_id].
    + rewrite insert_insert_eq. by apply insert_id.
    + rewrite delete_insert_eq. by apply delete_id.
  - by apply (end_after_begin tid a v c c1).
Qed.

Section WithExternals.
Context {ext : Externals}.

(** the callback on entering a call that is not skipped, in full *)
Lemma hip_api_callback_enter_shape tid domain cid data s c :
  cid ≠ HIP_API_ID___hipPushCallConfiguration →
  cid ≠ HIP_API_ID___hipPopCallConfiguration →
  phase data = ACTIVITY_API_PHASE_ENTER →
  let v := VString (roctracer_op_string ACTIVITY_DOMAIN_HIP_API cid 0) in
  let api := mkNode (next_node_id c) (attr_id (m_api_attr s)) v
                    (thread_ctx c !! tid) in
  let c1 := begin tid (m_api_attr s) v c in
  let kernel := kernel_name s cid data in
  let k := mkNode (next_node_id c + 1) (attr_id (m_kernel_name_attr s))
                  (VString (demangle kernel)) (Some api) in
  hip_api_callback tid domain cid data s c
  = if m_enable_tracing s
    then
      if decide (kernel = "")
      then (set_num_correlations_stored
              (wrap32 (m_num_correlations_stored s + 1))
              (push_correlation (api_correlation_id data) (Some api) s), c1)
      else (set_num_correlations_stored
              (wrap32 (m_num_correlations_stored s + 1))
              (push_correlation (api_correlation_id data) (Some k) s),
            set_next_node_id (next_node_id c + 1 + 1) c1)
    else (s, c1).
Proof.
  intros Hpush Hpop Hphase v api c1 kernel k.
  unfold hip_api_callback.
  rewrite decide_False by (intros [?|?]; done).
  rewrite decide_True by done.
  destruct (m_enable_tracing s); [|reflexivity].
  fold kernel.
  unfold get, begin. cbn [thread_ctx set_thread_ctx set_next_node_id].
  rewrite lookup_insert_eq. cbn [find_node_with_attribute].
  rewrite (decide_True (P := attr_id (m_api_attr s) = attr_id (m_api_attr s)))
    by done.
  destruct (decide (kernel = "")); reflexivity.
Qed.

(** X7: on entering a call that is not skipped, with tracing on, one
    entry is put under the call's correlation id, replacing what was
    there, and the stored counter goes up by one.  The node stored is
    the API node just begun or, when a kernel name is recorded and not
    empty, a node of the kernel-name attribute with the demangled name,
    child of that API node; the thread's context is the API node in
    both cases. *)
Theorem traced_enter_stores (tid domain cid : Z) (data : hip_api_data_t)
    (s : RocTracerService) (c : Caliper) :
  cid ≠ HIP_API_ID___hipPushCallConfiguration →
  cid ≠ HIP_API_ID___hipPopCallConfiguration →
  phase data = ACTIVITY_API_PHASE_ENTER →
  m_enable_tracing s = true →
  let r := hip_api_callback tid domain cid data s c in
  let api := mkNode (next_node_id c) (attr_id (m_api_attr s))
               (VString (roctracer_op_string ACTIVITY_DOMAIN_HIP_API cid 0))
               (thread_ctx c !! tid) in
  let kernel := kernel_name s cid data in
  let node :=
    if decide (kernel = "") then api
    else mkNode (next_node_id c + 1) (attr_id (m_kernel_name_attr s))
                (VString (demangle kernel)) (Some api) in
  m_correlation_map r.1
  = <[api_correlation_id data := Some node]> (m_correlation_map s)
  ∧ m_num_correlations_stored r.1
    = wrap32 (m_num_correlations_stored s + 1)
  ∧ thread_ctx r.2 !! tid = Some api
  ∧ (m_record_names s = false → node = api).
Proof.
  intros Hpush Hpop Hphase Htrace r api kernel node.
  unfold r. rewrite hip_api_callback_enter_shape by done.
  rewrite Htrace. fold kernel. unfold node.
  destruct (decide (kernel = "")) as [Hk|Hk]; cbn [fst snd].
  - repeat split. unfold begin. cbn [thread_ctx set_thread_ctx].
    apply lookup_insert_eq.
  - repeat split.
    + unfold begin. cbn [thread_ctx set_thread_ctx set_next_node_id].
      apply lookup_insert_eq.
    + intros Hnames. exfalso. apply Hk. unfold kernel, kernel_name.
      by rewrite Hnames.
Qed.

(** X8: entering and leaving a call on a thread gives back the contexts
    of all threads as they were, writes nothing on the log and
    dispatches nothing, whatever the call and the settings of the
    service. *)
Theorem enter_exit_restores_context (tid domain cid : Z)
    (enter leave : hip_api_data_t) (s : RocTracerService) (c : Caliper) :
  phase enter = ACTIVITY_API_PHASE_ENTER →
  phase leave ≠ ACTIVITY_API_PHASE_ENTER →
  let r1 := hip_api_callback tid domain cid enter s c in
  let r2 := hip_api_callback tid domain cid leave r1.1 r1.2 in
  thread_ctx r2.2 = thread_ctx c
  ∧ log r2.2 = log c
  ∧ processed r2.2 = processed c
  ∧ r2.1 = r1.1.
Proof.
  intros Henter Hleave r1 r2.
  destruct (decide (cid = HIP_API_ID___hipPushCallConfiguration
                    ∨ cid = HIP_API_ID___hipPopCallConfiguration)) as [Hs|Hs].
  - unfold r2, r1, hip_api_callback. by rewrite !decide_True.
  - assert (Hpush : cid ≠ HIP_API_ID___hipPushCallConfiguration) by tauto.
    assert (Hpop : cid ≠ HIP_API_ID___hipPopCallConfiguration) by tauto.
    set (v := VString (roctracer_op_string ACTIVITY_DOMAIN_HIP_API cid 0)).
    assert (H1 : m_api_attr r1.1 = m_api_attr s
                 ∧ thread_ctx r1.2 = thread_ctx (begin tid (m_api_attr s) v c)
                 ∧ log r1.2 = log c ∧ processed r1.2 = processed c).
    { unfold r1. rewrite hip_api_callback_enter_shape by done.
      destruct (m_enable_tracing s); [|done].
      by destruct (decide _). }
    destruct H1 as (Ha & Hctx & Hlog & Hproc).
    unfold r2. rewrite hip_api_callback_exit by done. cbn [fst snd].
    rewrite Ha.
    destruct (end_begin_ctx tid (m_api_attr s) v c r1.2 Hctx)
      as (-> & -> & ->).
    done.
Qed.

(** X9: what the callback leaves alone.  It never dispatches a snapshot
    and never changes the found, missed, records, flushed and flushes
    counters; it changes nothing at all for the two skipped calls; and
    it changes the service only on entering a call with tracing on. *)
Theorem callback_leaves_alone (tid domain cid : Z) (data : hip_api_data_t)
    (s : RocTracerService) (c : Caliper) :
  let r := hip_api_callback tid domain cid data s c in
  processed r.2 = processed c
  ∧ m_num_correlations_found r.1 = m_num_correlations_found s
  ∧ m_num_correlations_missed r.1 = m_num_correlations_missed s
  ∧ m_num_records r.1 = m_num_records s
  ∧ m_num_flushed r.1 = m_num_flushed s
  ∧ m_num_flushes r.1 = m_num_flushes s
  ∧ (cid = HIP_API_ID___hipPushCallConfiguration
     ∨ cid = HIP_API_ID___hipPopCallConfiguration → r = (s, c))
  ∧ (phase data ≠ ACTIVITY_API_PHASE_ENTER ∨ m_enable_tracing s = false →
     r.1 = s).
Proof.
  intros r. unfold r.
  destruct (decide (cid = HIP_API_ID___hipPushCallConfiguration
                    ∨ cid = HIP_API_ID___hipPopCallConfiguration)) as [Hs|Hs].
  - unfold hip_api_callback. rewrite decide_True by done. by repeat split.
  - assert (Hpush : cid ≠ HIP_API_ID___hipPushCallConfiguration) by tauto.
    assert (Hpop : cid ≠ HIP_API_ID___hipPopCallConfiguration) by tauto.
    destruct (decide (phase data = ACTIVITY_API_PHASE_ENTER)) as [He|He].
    + rewrite hip_api_callback_enter_shape by done.
      destruct (m_enable_tracing s) eqn:Ht.
      * destruct (decide _); repeat split; try done;
          intros [?|?]; done.
      * by repeat split.
    + rewrite hip_api_callback_exit by done. cbn [fst snd].
      rewrite end_processed. by repeat split.
Qed.

Lemma callback_frame_counters tid domain cid data s c :
  let r := hip_api_callback tid domain cid data s c in
  m_num_records r.1 = m_num_records s
  ∧ m_num_flushed r.1 = m_num_flushed s
  ∧ m_num_flushes r.1 = m_num_flushes s
  ∧ m_num_correlations_found r.1 = m_num_correlations_found s
  ∧ m_num_correlations_missed r.1 = m_num_correlations_missed s
  ∧ (m_num_correlations_stored r.1 = m_num_correlations_stored s
     ∨ m_num_correlations_stored r.1
       = wrap32 (m_num_correlations_stored s + 1)).
Proof.
  intros r. unfold r.
  destruct (decide (cid = HIP_API_ID___hipPushCallConfiguration
                    ∨ cid = HIP_API_ID___hipPopCallConfiguration)) as [Hs|Hs].
  - unfold hip_api_callback. rewrite decide_True by done.
    repeat split. by left.
  - assert (Hpush : cid ≠ HIP_API_ID___hipPushCallConfiguration) by tauto.
    assert (Hpop : cid ≠ HIP_API_ID___hipPopCallConfiguration) by tauto.
    destruct (decide (phase data = ACTIVITY_API_PHASE_ENTER)) as [He|He].
    + rewrite hip_api_callback_enter_shape by done.
      destruct (m_enable_tracing s).
      * destruct (decide _); repeat split; by right.
      * repeat split. by left.
    + rewrite hip_api_callback_exit by done. repeat split. by left.
Qed.

(** X10: the six counters stay values of type [unsigned] under the API
    callback and under the buffer callback. *)
Theorem counters_stay_in_range (tid domain cid size : Z)
    (data : hip_api_data_t) (buf : activity_buffer)
    (s : RocTracerService) (c : Caliper) :
  counters_in_range s →
  counters_in_range (hip_api_callback tid domain cid data s c).1
  ∧ counters_in_range (rt_activity_callback tid buf size s c).1.
Proof.
  intros Hs. pose proof Hs as (Hr & Hf & Hfl & Hst & Hfo & Hmi). split.
  - destruct (callback_frame_counters tid domain cid data s c)
      as (H1 & H2 & H3 & H4 & H5 & H6).
    unfold counters_in_range. rewrite H1, H2, H3, H4, H5.
    destruct H6 as [-> | ->]; repeat split; try tauto; apply wrap32_range.
  - rewrite rt_activity_callback_service. unfold after_flush, counters_in_range.
    cbn [update m_num_records m_num_flushed m_num_flushes
         m_num_correlations_stored m_num_correlations_found
         m_num_correlations_missed].
    rewrite drain_found_hits, drain_missed_hits by done.
    repeat split; try tauto; apply wrap32_range.
Qed.

End WithExternals.

End CallbackProperties.

(** ** Registration and the end of a channel *)

Module RegistrationProperties.

Import RocTracer Notions Registration.

Lemma create_callback_attributes_settings s c :
  let s' := (create_callback_attributes s c).1 in
  m_enable_tracing s' = m_enable_tracing s
  ∧ m_record_names s' = m_record_names s
  ∧ m_roctracer_pool s' = m_roctracer_pool s.
Proof.
  unfold create_callback_attributes.
  by destruct (create_attribute _ _ _ _ c).
Qed.

Lemma create_activity_attributes_settings s c :
  let s' := (create_activity_attributes s c).1 in
  m_enable_tracing s' = m_enable_tracing s
  ∧ m_record_names s' = m_record_names s
  ∧ m_roctracer_pool s' = m_roctracer_pool s.
Proof.
  unfold create_activity_attributes.
  repeat lazymatch goal with
         | |- context [match create_attribute ?n ?t ?f ?m ?c with _ => _ end] =>
             destruct (create_attribute n t f m c)
         end.
  by repeat split.
Qed.

(** the settings of a new instance come from the channel, the pool is
    null *)
Lemma RocTracerService_new_settings c channel :
  let s := (RocTracerService_new c channel).1 in
  m_enable_tracing s
  = config_get_bool channel "roctracer" s_configdata "trace_activities"
  ∧ m_record_names s
    = config_get_bool channel "roctracer" s_configdata "record_kernel_names"
  ∧ m_roctracer_pool s = None.
Proof.
  unfold RocTracerService_new.
  match goal with
  | |- context [create_callback_attributes ?s0 c] =>
      pose proof (create_callback_attributes_settings s0 c) as H1;
      destruct (create_callback_attributes s0 c) as [s1 c1]
  end.
  pose proof (create_activity_attributes_settings s1 c1) as H2.
  cbn zeta in *. cbn [fst] in H1.
  destruct H2 as (-> & -> & ->). destruct H1 as (-> & -> & ->).
  by repeat split.
Qed.

Lemma same_but_registry_refl c : same_but_registry c c.
Proof. by repeat split. Qed.

Lemma same_but_registry_trans c1 c2 c3 :
  same_but_registry c1 c2 → same_but_registry c2 c3 →
  same_but_registry c1 c3.
Proof.
  unfold same_but_registry.
  intros (-> & -> & -> & -> & ->) (-> & -> & -> & -> & ->). done.
Qed.

Lemma create_attribute_same name type flags meta c :
  same_but_registry c (create_attribute name type flags meta c).2.
Proof. apply create_attribute_frame. Qed.

Lemma RocTracerService_new_runtime c channel :
  same_but_registry c (RocTracerService_new c channel).2.
Proof.
  unfold RocTracerService_new, create_callback_attributes,
    create_activity_attributes.
  repeat lazymatch goal with
         | |- context [match create_attribute ?n ?t ?f ?m ?c0 with _ => _ end] =>
             let H := fresh "H" in
             pose proof (create_attribute_same n t f m c0) as H;
             destruct (create_attribute n t f m c0) as [? ?];
             cbn [snd] in H
         end.
  cbn [snd].
  repeat (eapply same_but_registry_trans; [eassumption|]).
  apply same_but_registry_refl.
Qed.

(** X11: a registration while no instance is active.  The new instance
    is bound to the channel, with an empty correlation map, zero
    counters and a null pool; its three callbacks are connected to the
    channel in the order post_init, pre_finish, finish; no warning is
    written; and unless the channel says otherwise, activity tracing is
    on and kernel names are not recorded. *)
Theorem clean_registration (c : Caliper) (channel : Channel) :
  let r := register_roctracer None c channel in
  ∃ inst,
    r.1 = Some inst
    ∧ m_channel inst = channel
    ∧ m_correlation_map inst = ∅
    ∧ m_num_correlations_stored inst = 0
    ∧ m_roctracer_pool inst = None
    ∧ connections r.2
      = connections c
        ++ [ (chn_id channel, post_init_evt, "RocTracerService::post_init_cb");
             (chn_id channel, pre_finish_evt, "RocTracerService::pre_finish_cb");
             (chn_id channel, finish_evt, "RocTracerService::finish_cb") ]
    ∧ log r.2
      = log c
        ++ (if decide (1 ≤ verbosity c)
            then [ [ LStr (chn_name channel);
                     LStr ": Registered roctracer service.";
                     LStr " Activity tracing is ";
                     LStr (if m_enable_tracing inst then "on" else "off") ] ]
            else [])
    ∧ (chn_config channel = ∅ →
       m_enable_tracing inst = true ∧ m_record_names inst = false).
Proof.
  intros r. unfold r, register_roctracer.
  pose proof (RocTracerService_new_fresh c channel) as Hf.
  pose proof (RocTracerService_new_settings c channel) as Hs.
  pose proof (RocTracerService_new_runtime c channel) as Hr.
  destruct (RocTracerService_new c channel) as [inst c1].
  cbn zeta in Hf, Hs. cbn [fst snd] in *.
  destruct Hf as (Hch & Hm & _ & _ & _ & Hst & _ & _).
  destruct Hs as (Ht & Hn & Hp).
  destruct Hr as (Hconn & Hlog & Hv & _ & _).
  exists inst. repeat split; try done.
  - rewrite Log_connections. unfold connect.
    cbn [connections set_connections]. rewrite Hconn, <- !app_assoc. done.
  - unfold Log. cbn [verbosity connect set_connections log]. rewrite Hv.
    destruct (decide (1 ≤ verbosity c)); cbn [log set_log connect
                                               set_connections].
    + by rewrite Hlog.
    + by rewrite Hlog, app_nil_r.
  - rewrite Ht. unfold config_get_bool. by rewrite H, lookup_empty.
  - rewrite Hn. unfold config_get_bool. by rewrite H, lookup_empty.
Qed.

(** X12: the end of a channel.  The finish callback leaves [s_instance]
    null and changes the runtime by log lines only: none with tracing
    off or at verbosity 0; with tracing on, at verbosity 1 the line of
    the flushes, records and flushed counters, and at verbosity 2 also
    the line of the stored, found and missed counters. *)
Theorem finish_reports_and_resets (s : RocTracerService) (c : Caliper)
    (channel : Channel) :
  let line1 := [ LStr (chn_name channel); LStr ": roctracer: ";
                 LNum (m_num_flushes s); LStr " activity flushes, ";
                 LNum (m_num_records s); LStr " records processed, ";
                 LNum (m_num_flushed s); LStr " records flushed." ] in
  let line2 := [ LStr (chn_name channel); LStr ": roctracer: ";
                 LNum (m_num_correlations_stored s);
                 LStr " correlations stored; ";
                 LNum (m_num_correlations_found s);
                 LStr " correlations found, ";
                 LNum (m_num_correlations_missed s); LStr " missed." ] in
  ∃ c1,
    finish_evt_callback (Some s) c channel = Some (None, c1)
    ∧ connections c1 = connections c
    ∧ processed c1 = processed c
    ∧ thread_ctx c1 = thread_ctx c
    ∧ log c1
      = log c
        ++ (if m_enable_tracing s
            then (if decide (1 ≤ verbosity c) then [line1] else [])
                 ++ (if decide (2 ≤ verbosity c) then [line2] else [])
            else []).
Proof.
  intros line1 line2. eexists. split; [reflexivity|].
  unfold finish_cb.
  destruct (m_enable_tracing s).
  - unfold Log. cbn [verbosity].
    destruct (decide (1 ≤ verbosity c)) as [H1|H1];
      cbn [verbosity set_log];
      destruct (decide (2 ≤ verbosity c)) as [H2|H2];
      cbn [verbosity set_log connections processed thread_ctx log];
      rewrite ?decide_True by done;
      cbn [verbosity set_log connections processed thread_ctx log];
      repeat split; rewrite <- ?app_assoc, ?app_nil_r; try done; lia.
  - repeat split. by rewrite app_nil_r.
Qed.

End RegistrationProperties.

(** ** Attaching to and detaching from the vendor library *)

Module LifecycleProperties.

Import RocTracer Lifecycle.

Section WithLibrary.
Context {ext : Externals} {lib : Library}.

Lemma env_log_frame level line e :
  env_calls (env_log level line e) = env_calls e
  ∧ env_subscribed (env_log level line e) = env_subscribed e
  ∧ connections (env_caliper (env_log level line e))
    = connections (env_caliper e)
  ∧ log (env_caliper (env_log level line e))
    = log (env_caliper e)
      ++ (if decide (level ≤ verbosity (env_caliper e)) then [line] else []).
Proof.
  unfold env_log, Log. cbn [env_calls env_subscribed env_caliper].
  destruct (decide _); cbn [connections log set_log]; repeat split.
  by rewrite app_nil_r.
Qed.

(** init_tracing: the pool, the calls made, and what is connected and
    written *)
Lemma init_tracing_shape s channel e :
  let pool := roctracer_pool_out (env_calls e) (m_roctracer_pool s) in
  let r := init_tracing s channel e in
  let out := until_failure (env_calls e) (tracing_calls pool) in
  r.1 = set_roctracer_pool pool s
  ∧ env_calls r.2 = out.1
  ∧ env_subscribed r.2 = env_subscribed e
  ∧ connections (env_caliper r.2)
    = connections (env_caliper e)
      ++ (if out.2
          then [(chn_id channel, pre_flush_evt, "RocTracerService::pre_flush_cb")]
          else [])
  ∧ (∃ line,
       log (env_caliper r.2)
       = log (env_caliper e)
         ++ (if decide ((if out.2 then 1 else 0) ≤ verbosity (env_caliper e))
             then [line] else []))
  ∧ (∃ k, (1 ≤ k ≤ 4)%nat
          ∧ out.1 = env_calls e ++ take k (tracing_calls pool)
          ∧ (out.2 = true → k = 4%nat)).
Proof.
  intros pool r out. unfold r, out, init_tracing, tracing_calls, vendor.
  fold pool. cbn [until_failure env_calls env_caliper env_subscribed
                  m_roctracer_pool set_roctracer_pool].
  repeat match goal with
         | |- context [decide (roctracer_status ?h ?call ≠ 0)] =>
             destruct (decide (roctracer_status h call ≠ 0))
         end;
    cbn [fst snd];
    repeat match goal with
           | |- context [env_log ?l ?ln ?e0] =>
               let H := fresh in
               pose proof (env_log_frame l ln e0) as H;
               destruct H as (-> & -> & -> & ->)
           end;
    cbn [env_calls env_caliper env_subscribed env_connect connect
         connections set_connections verbosity log];
    (split; [reflexivity|]); (split; [reflexivity|]);
    (split; [reflexivity|]); (split; [by rewrite ?app_nil_r|]);
    (split; [eexists; reflexivity|]).
  - exists 1%nat. repeat split; [lia..|done].
  - exists 2%nat. rewrite <- !app_assoc. repeat split; [lia..|done].
  - exists 3%nat. rewrite <- !app_assoc. repeat split; [lia..|done].
  - exists 4%nat. rewrite <- !app_assoc. repeat split; [lia..|done].
  - exists 4%nat. rewrite <- !app_assoc. repeat split; lia.
Qed.

(** X13: init_tracing makes its four calls in order (open the pool,
    make it the default, enable HIP_OPS, enable HCC_OPS) and stops at
    the first that does not return 0.  The pre_flush callback is
    connected only when all four return 0; otherwise one error line of
    level 0 is written and nothing is connected.  In both cases the
    service keeps the pool the library handed out. *)
Theorem init_tracing_stops_at_first_failure (s : RocTracerService)
    (channel : Channel) (e : Env) :
  let pool := roctracer_pool_out (env_calls e) (m_roctracer_pool s) in
  let r := init_tracing s channel e in
  let out := until_failure (env_calls e) (tracing_calls pool) in
  r.1 = set_roctracer_pool pool s
  ∧ env_calls r.2 = out.1
  ∧ env_subscribed r.2 = env_subscribed e
  ∧ connections (env_caliper r.2)
    = connections (env_caliper e)
      ++ (if out.2
          then [(chn_id channel, pre_flush_evt, "RocTracerService::pre_flush_cb")]
          else [])
  ∧ (∃ line,
       log (env_caliper r.2)
       = log (env_caliper e)
         ++ (if decide ((if out.2 then 1 else 0) ≤ verbosity (env_caliper e))
             then [line] else []))
  ∧ (∃ k, (1 ≤ k ≤ 4)%nat
          ∧ out.1 = env_calls e ++ take k (tracing_calls pool)
          ∧ (out.2 = true → k = 4%nat)).
Proof. apply init_tracing_shape. Qed.

Lemma init_callbacks_shape channel e :
  env_calls (init_callbacks channel e)
  = env_calls e ++ [ roctracer_set_properties ACTIVITY_DOMAIN_HIP_API;
                     roctracer_enable_domain_callback ACTIVITY_DOMAIN_HIP_API ]
  ∧ env_subscribed (init_callbacks channel e) = env_subscribed e
  ∧ connections (env_caliper (init_callbacks channel e))
    = connections (env_caliper e).
Proof.
  unfold init_callbacks, vendor. cbn [env_calls env_caliper env_subscribed].
  destruct (decide _);
    match goal with
    | |- context [env_log ?l ?ln ?e0] =>
        destruct (env_log_frame l ln e0) as (-> & -> & -> & _)
    end;
    cbn [env_calls env_caliper env_subscribed];
    by rewrite <- app_assoc.
Qed.

(** X14: from post_init to pre_finish.  post_init_cb announces the API
    attribute, sets the properties and enables the callback of the HIP
    API domain, and with tracing on goes on to init_tracing whether or
    not the callback could be enabled; pre_flush_cb passes the pool the
    service holds; pre_finish_cb disables the callback and, with
    tracing on, both activity domains, closes the pool that
    init_tracing left in the service, however far init_tracing got,
    and nulls it.  With tracing off no pool call is made. *)
Theorem attach_then_detach (s : RocTracerService) (channel : Channel)
    (e : Env) :
  let r1 := post_init_cb s channel e in
  let r2 := pre_finish_cb r1.1 channel r1.2 in
  let first := [ roctracer_set_properties ACTIVITY_DOMAIN_HIP_API;
                 roctracer_enable_domain_callback ACTIVITY_DOMAIN_HIP_API ] in
  let pool := roctracer_pool_out (env_calls e ++ first) (m_roctracer_pool s) in
  env_subscribed r2.2 = env_subscribed e ++ [(chn_id channel, m_api_attr s)]
  ∧ env_calls (pre_flush_cb r1.1 r1.2)
    = env_calls r1.2
      ++ [roctracer_flush_activity_expl
            (if m_enable_tracing s then pool else m_roctracer_pool s)]
  ∧ (if m_enable_tracing s
     then ∃ k, (1 ≤ k ≤ 4)%nat
               ∧ env_calls r2.2
                 = env_calls e ++ first ++ take k (tracing_calls pool)
                   ++ [ roctracer_disable_domain_callback ACTIVITY_DOMAIN_HIP_API;
                        roctracer_disable_domain_activity ACTIVITY_DOMAIN_HCC_OPS;
                        roctracer_disable_domain_activity ACTIVITY_DOMAIN_HIP_OPS;
                        roctracer_close_pool_expl pool ]
               ∧ m_roctracer_pool r1.1 = pool
               ∧ m_roctracer_pool r2.1 = None
     else env_calls r2.2
          = env_calls e ++ first
            ++ [roctracer_disable_domain_callback ACTIVITY_DOMAIN_HIP_API]
          ∧ r2.1 = s).
Proof.
  intros r1 r2 first pool.
  set (e1 := init_callbacks channel (subscribe_attributes s channel e)).
  destruct (init_callbacks_shape channel (subscribe_attributes s channel e))
    as (Hc1 & Hs1 & _).
  fold e1 in Hc1, Hs1. cbn [subscribe_attributes env_calls env_subscribed] in Hc1, Hs1.
  assert (Hr1 : r1.1 = (if m_enable_tracing s then set_roctracer_pool pool s else s)
                ∧ env_subscribed r1.2 = env_subscribed e ++ [(chn_id channel, m_api_attr s)]
                ∧ ∃ k, (1 ≤ k ≤ 4)%nat
                       ∧ env_calls r1.2
                         = env_calls e ++ first
                           ++ (if m_enable_tracing s
                               then take k (tracing_calls pool) else [])).
  { unfold r1, post_init_cb. fold e1.
    destruct (m_enable_tracing s).
    - destruct (init_tracing_shape s channel e1)
        as (H1 & H2 & H3 & _ & _ & (k & Hk & H4 & _)).
      rewrite Hc1 in H1, H2, H4. fold first pool in H1, H2, H4.
      rewrite H1, H2, H3, H4, Hs1. split; [done|]. split; [done|].
      exists k. split; [done|]. by rewrite <- app_assoc.
    - cbn [fst snd]. rewrite Hs1, Hc1. split; [done|]. split; [done|].
      exists 1%nat. split; [lia|]. by rewrite app_nil_r. }
  destruct Hr1 as (H11 & H12 & (k & Hk & H13)).
  assert (Hsub : env_subscribed r2.2 = env_subscribed r1.2
                 ∧ env_calls r2.2
                   = env_calls r1.2
                     ++ [roctracer_disable_domain_callback ACTIVITY_DOMAIN_HIP_API]
                     ++ (if m_enable_tracing r1.1
                         then [ roctracer_disable_domain_activity ACTIVITY_DOMAIN_HCC_OPS;
                                roctracer_disable_domain_activity ACTIVITY_DOMAIN_HIP_OPS;
                                roctracer_close_pool_expl (m_roctracer_pool r1.1) ]
                         else [])
                 ∧ r2.1 = (if m_enable_tracing r1.1
                           then set_roctracer_pool None r1.1 else r1.1)).
  { unfold r2, pre_finish_cb, finish_callbacks, finish_tracing, vendor.
    cbn [env_calls env_caliper env_subscribed].
    destruct (m_enable_tracing r1.1); cbn [fst snd];
      repeat match goal with
             | |- context [env_log ?l ?ln ?e0] =>
                 destruct (env_log_frame l ln e0) as (-> & -> & _ & _)
             end;
      cbn [env_calls env_caliper env_subscribed];
      rewrite <- ?app_assoc; done. }
  destruct Hsub as (H21 & H22 & H23).
  assert (Ht : m_enable_tracing r1.1 = m_enable_tracing s).
  { rewrite H11. by destruct (m_enable_tracing s) eqn:E. }
  rewrite Ht in H22, H23.
  split; [by rewrite H21|]. split.
  - unfold pre_flush_cb, vendor. cbn [snd env_calls]. rewrite H11.
    by destruct (m_enable_tracing s).
  - rewrite H22, H23, H13, H11.
    destruct (m_enable_tracing s).
    + exists k. split; [done|]. cbn [m_roctracer_pool set_roctracer_pool].
      rewrite <- !app_assoc. done.
    + rewrite app_nil_r, <- !app_assoc. done.
Qed.

End WithLibrary.

End LifecycleProperties.

(** ** More on the umpire service *)

Module UmpireProperties.

Import Umpire Notions UmpireFacts RegistrationProperties.

(** snapshot, for any service: the runtime gains the per-allocator
    records, the builder the two totals *)
Lemma snapshot_shape s rm tid c channel info snapshot_rec :
  snapshot s rm tid c channel info snapshot_rec
  = (set_processed
       (processed c
        ++ (if m_per_allocator_stats s
            then map (λ name, (chn_id channel, SnapshotView_empty,
                               view (allocator_record s name
                                       (getAllocator rm name)
                                       (view (snapshot_context s tid c info)))))
                     (getAllocatorNames rm)
            else [])) c,
     append (m_total_count_attr s) (VUint (wrap64 (sum_allocation_count rm)))
       (append (m_total_size_attr s) (VUint (wrap64 (sum_current_size rm)))
          snapshot_rec)).
Proof.
  unfold snapshot.
  rewrite allocator_loop_spec by (unfold UINT64_MAX; lia).
  by rewrite !Z.add_0_l.
Qed.

Lemma sum_permutation (f : string → Z) l1 l2 :
  l1 ≡ₚ l2 → foldr Z.add 0 (map f l1) = foldr Z.add 0 (map f l2).
Proof.
  induction 1 as [|x l1 l2 _ IH|x y l|l1 l2 l3 _ IH1 _ IH2]; cbn [map foldr].
  - done.
  - by rewrite IH.
  - lia.
  - by rewrite IH1.
Qed.

(** X15: the two totals do not depend on the order in which the
    resource manager lists its allocators: two managers with the same
    allocators, listed in any two orders, give the same builder and as
    many per-allocator records. *)
Theorem totals_independent_of_order (s : UmpireService)
    (rm1 rm2 : ResourceManager) (tid : Z) (c : Caliper) (channel : Channel)
    (info : SnapshotView) (snapshot_rec : SnapshotBuilder) :
  getAllocatorNames rm1 ≡ₚ getAllocatorNames rm2 →
  (∀ name, getAllocator rm1 name = getAllocator rm2 name) →
  (snapshot s rm1 tid c channel info snapshot_rec).2
  = (snapshot s rm2 tid c channel info snapshot_rec).2
  ∧ length (dispatched c (snapshot s rm1 tid c channel info snapshot_rec).1)
    = length (dispatched c (snapshot s rm2 tid c channel info snapshot_rec).1).
Proof.
  intros Hperm Halloc. rewrite !snapshot_shape. cbn [fst snd].
  assert (Hs : sum_current_size rm1 = sum_current_size rm2).
  { unfold sum_current_size.
    rewrite (sum_permutation _ _ _ Hperm).
    f_equal. apply map_ext. intros n. by rewrite Halloc. }
  assert (Hc : sum_allocation_count rm1 = sum_allocation_count rm2).
  { unfold sum_allocation_count.
    rewrite (sum_permutation _ _ _ Hperm).
    f_equal. apply map_ext. intros n. by rewrite Halloc. }
  rewrite Hs, Hc. split; [done|].
  unfold dispatched. cbn [processed set_processed].
  rewrite !drop_app_length.
  destruct (m_per_allocator_stats s); [|done].
  rewrite !length_map. by apply Permutation_length.
Qed.

Lemma snapshot_context_fields s tid c info :
  sv_fields (view (snapshot_context s tid c info))
  = if m_per_allocator_stats s then take 60 (sv_fields info) else [].
Proof.
  unfold snapshot_context, pull_context, append_view, view. cbn [sv_fields].
  destruct (m_per_allocator_stats s); [|done].
  rewrite !(proj1 (append_branch_fields _ _)).
  destruct (append_fields_spec (sv_fields info) (FixedSizeSnapshotRecord 60))
    as (-> & _ & _); [simpl; lia|].
  done.
Qed.

(** X16: how much of a per-allocator record survives the fixed
    capacities (60 for the context, 64 for the record).  With at most
    59 fields of trigger info the record is the info followed by all
    five statistics; with 60 or more it is the first 60 info fields and
    the first four statistics: the allocation count is dropped. *)
Theorem allocator_record_capacity (s : UmpireService) (tid : Z) (c : Caliper)
    (info : SnapshotView) (name : string) (alloc : Allocator) :
  m_per_allocator_stats s = true →
  let record := view (allocator_record s name alloc
                        (view (snapshot_context s tid c info))) in
  ((length (sv_fields info) ≤ 59)%nat →
   sv_fields record = sv_fields info ++ allocator_fields s name alloc)
  ∧ ((60 ≤ length (sv_fields info))%nat →
     sv_fields record
     = take 60 (sv_fields info) ++ take 4 (allocator_fields s name alloc)
     ∧ length (sv_fields record) = 64%nat).
Proof.
  intros Hper record. unfold record.
  rewrite allocator_record_fields, snapshot_context_fields, Hper.
  split.
  - intros Hle. rewrite (take_ge (sv_fields info)) by lia.
    apply take_ge. rewrite length_app. simpl. lia.
  - intros Hge.
    assert (Hlen : length (take 60 (sv_fields info)) = 60%nat)
      by (rewrite length_take; lia).
    assert (Heq : take 64 (take 60 (sv_fields info)
                           ++ allocator_fields s name alloc)
                  = take 60 (sv_fields info)
                    ++ take 4 (allocator_fields s name alloc)).
    { rewrite take_app, Hlen. rewrite (take_ge (take 60 _)) by lia. done. }
    rewrite Heq. split; [done|].
    rewrite length_app, Hlen. reflexivity.
Qed.

(** X17: a snapshot changes the runtime only by the records it
    dispatches: log, thread contexts, connections and registry stay,
    and with per-allocator statistics off, or with no allocator, the
    runtime is left as it is.  With no allocator both totals are 0. *)
Theorem snapshot_leaves_runtime (s : UmpireService) (rm : ResourceManager)
    (tid : Z) (c : Caliper) (channel : Channel) (info : SnapshotView)
    (snapshot_rec : SnapshotBuilder) :
  let r := snapshot s rm tid c channel info snapshot_rec in
  log r.1 = log c
  ∧ thread_ctx r.1 = thread_ctx c
  ∧ connections r.1 = connections c
  ∧ registry r.1 = registry c
  ∧ (m_per_allocator_stats s = false → r.1 = c)
  ∧ (getAllocatorNames rm = [] →
     r.1 = c
     ∧ r.2 = append (m_total_count_attr s) (VUint 0)
               (append (m_total_size_attr s) (VUint 0) snapshot_rec)).
Proof.
  intros r. unfold r. rewrite snapshot_shape. cbn [fst snd].
  repeat split.
  - intros ->. rewrite app_nil_r. by destruct c.
  - rewrite H. cbn [map]. destruct (m_per_allocator_stats s);
      rewrite app_nil_r; by destruct c.
  - unfold sum_allocation_count, sum_current_size. by rewrite H.
Qed.

Lemma UmpireService_new_runtime agg c channel :
  same_but_registry c (UmpireService_new agg c channel).2
  ∧ m_per_allocator_stats (UmpireService_new agg c channel).1
    = config_get_bool channel "umpire" s_configdata "per_allocator_statistics"
  ∧ m_root_node (UmpireService_new agg c channel).1
    = mkNode CALI_INV_ID CALI_INV_ID VEmpty None.
Proof.
  unfold UmpireService_new, create_attributes.
  repeat lazymatch goal with
         | |- context [match create_attribute ?n ?t ?f ?m ?c0 with _ => _ end] =>
             let H := fresh "H" in
             pose proof (create_attribute_same n t f m c0) as H;
             destruct (create_attribute n t f m c0) as [? ?];
             cbn [snd] in H
         end.
  cbn [fst snd m_per_allocator_stats m_root_node]. split; [|done].
  repeat (eapply same_but_registry_trans; [eassumption|]).
  apply same_but_registry_refl.
Qed.

(** X18: umpire_register makes an instance of its own for the channel
    (there is no shared instance and no warning), connects its snapshot
    callback and then its finish callback to the channel, and writes
    one line at verbosity 1; per-allocator statistics are on unless the
    channel says otherwise, and the root node of the per-allocator
    records is a node without parent. *)
Theorem umpire_register_connects (agg : Attribute) (c : Caliper)
    (channel : Channel) :
  let r := umpire_register agg c channel in
  connections r.2
  = connections c
    ++ [ (chn_id channel, snapshot_evt, "UmpireService::snapshot");
         (chn_id channel, finish_evt, "UmpireService::finish_cb") ]
  ∧ log r.2
    = log c
      ++ (if decide (1 ≤ verbosity c)
          then [ [ LStr (chn_name channel);
                   LStr ": Registered umpire service" ] ]
          else [])
  ∧ processed r.2 = processed c
  ∧ node_parent (m_root_node r.1) = None
  ∧ (chn_config channel = ∅ → m_per_allocator_stats r.1 = true).
Proof.
  intros r. unfold r, umpire_register.
  destruct (UmpireService_new_runtime agg c channel)
    as ((Hconn & Hlog & Hv & Hp & _) & Hper & Hroot).
  destruct (UmpireService_new agg c channel) as [inst c1].
  cbn [fst snd] in *.
  split; [|split; [|split; [|split]]].
  - rewrite Log_connections. unfold connect.
    cbn [connections set_connections]. by rewrite Hconn, <- app_assoc.
  - unfold Log. cbn [verbosity connect set_connections]. rewrite Hv.
    destruct (decide (1 ≤ verbosity c));
      cbn [log set_log connect set_connections];
      by rewrite Hlog, ?app_nil_r.
  - rewrite Log_processed. unfold connect.
    cbn [processed set_connections]. done.
  - by rewrite Hroot.
  - intros Hcfg. rewrite Hper. unfold config_get_bool.
    by rewrite Hcfg, lookup_empty.
Qed.

End UmpireProperties.

(** ** The further properties on the concrete run *)

Module MoreRuns.

Import RocTracer Notions Accounting Scenario ScenarioMore.
Import FlushExact FlushProperties CallbackProperties UmpireProperties.

(** X2 on the run: the records of ids 42 and 99 delivered to the service
    holding a node under 42. *)
Lemma each_flushed_record_counted_once_run :
  m_num_correlations_found
    (rt_activity_callback (ext := hip) thread_rt
       [(record_42, 0); (record_99, 0)] 128 service_42 runtime).1 = 1
  ∧ m_num_correlations_missed
      (rt_activity_callback (ext := hip) thread_rt
         [(record_42, 0); (record_99, 0)] 128 service_42 runtime).1 = 1.
Proof.
  assert (H : counters_in_range service_42)
    by (vm_compute; repeat split; discriminate).
  pose proof (each_flushed_record_counted_once (ext := hip) thread_rt 128
                [(record_42, 0); (record_99, 0)] service_42 runtime H) as H0.
  cbv zeta in H0. destruct H0 as (_ & Hf & Hm & _).
  split; [rewrite Hf | rewrite Hm]; vm_compute; reflexivity.
Defined.

(** X4 on the run: the kernel record and the copy record, both of id
    42. *)
Lemma second_delivery_misses_run :
  map (λ x, sv_branch x.2)
      (dispatched runtime
         (rt_activity_callback (ext := hip) thread_rt
            [(record_42, 0); (record_copy_42, 0)] 128 service_42 runtime).2)
  = [Some node_a; None].
Proof.
  assert (H1 : is_activity_record (ext := hip) record_42 = true)
    by (vm_compute; reflexivity).
  assert (H2 : is_activity_record (ext := hip) record_copy_42 = true)
    by (vm_compute; reflexivity).
  assert (H3 : correlation_id record_copy_42 = correlation_id record_42)
    by (vm_compute; reflexivity).
  assert (H4 : m_correlation_map service_42 !! correlation_id record_42
               = Some (Some node_a)) by (vm_compute; reflexivity).
  pose proof (second_delivery_misses (ext := hip) thread_rt 128 0
                record_42 record_copy_42 node_a service_42 runtime
                H1 H2 H3 H4) as H.
  cbv zeta in H. destruct H as (Hd & _).
  rewrite Hd. reflexivity.
Defined.

(** X5 on the run: the records of ids 42 and 99 in one buffer or in
    two. *)
Lemma split_delivery_run :
  processed
    (rt_activity_callback (ext := hip) thread_rt [(record_99, 0)] 64
       (rt_activity_callback (ext := hip) thread_rt [(record_42, 0)] 64
          service_42 runtime).1
       (rt_activity_callback (ext := hip) thread_rt [(record_42, 0)] 64
          service_42 runtime).2).2
  = processed
      (rt_activity_callback (ext := hip) thread_rt
         ([(record_42, 0)] ++ [(record_99, 0)]) 128 service_42 runtime).2.
Proof.
  assert (H : Forall (λ x : roctracer_record_t * Z, x.2 = 0) [(record_42, 0)])
    by (repeat constructor).
  pose proof (split_delivery (ext := hip) thread_rt 128 64 64
                [(record_42, 0)] [(record_99, 0)] service_42 runtime H) as H0.
  cbv zeta in H0. exact (proj1 H0).
Defined.

(** X6 on the run: the copy record. *)
Lemma activity_snapshot_layout_run :
  ∃ v, dispatched runtime
         (flush_record (ext := hip) record_copy_42 service_42 runtime).2
       = tagged service_42 [v]
       ∧ length (sv_fields v) = 7%nat
       ∧ sv_fields v !! 3%nat
         = Some (m_activity_duration_attr service_42, VUint 100).
Proof.
  assert (H1 : is_activity_record (ext := hip) record_copy_42 = true)
    by (vm_compute; reflexivity).
  assert (H2 : 0 ≤ begin_ns record_copy_42 ≤ UINT64_MAX)
    by (vm_compute; split; discriminate).
  assert (H3 : 0 ≤ end_ns record_copy_42 ≤ UINT64_MAX)
    by (vm_compute; split; discriminate).
  pose proof (activity_snapshot_layout (ext := hip) record_copy_42
                service_42 runtime H1 H2 H3) as H.
  cbv zeta in H. destruct H as (v & Hd & _ & Hl & Hdur & _).
  exists v. split; [exact Hd|]. split.
  - rewrite Hl. reflexivity.
  - rewrite Hdur. reflexivity.
Defined.

(** X7 on the run: a kernel launch (call 102) with kernel names
    recorded. *)
Lemma traced_enter_stores_run :
  node_data <$>
    (m_correlation_map
       (hip_api_callback (ext := hip) thread_a 3 102 enter_launch
          service_k runtime0).1 !! 43 ≫= id)
  = Some (VString "_Z6matmulPfS_S_").
Proof.
  assert (H1 : 102 ≠ HIP_API_ID___hipPushCallConfiguration (Externals := hip))
    by (vm_compute; discriminate).
  assert (H2 : 102 ≠ HIP_API_ID___hipPopCallConfiguration (Externals := hip))
    by (vm_compute; discriminate).
  assert (H3 : phase enter_launch = ACTIVITY_API_PHASE_ENTER (Externals := hip))
    by (vm_compute; reflexivity).
  assert (H4 : m_enable_tracing service_k = true)
    by (vm_compute; reflexivity).
  pose proof (traced_enter_stores (ext := hip) thread_a 3 102 enter_launch
                service_k runtime0 H1 H2 H3 H4) as H.
  cbv zeta in H. destruct H as (Hm & _).
  rewrite Hm, lookup_insert_eq. vm_compute. reflexivity.
Defined.

(** X8 on the run: operation 7 entered and left on thread_a. *)
Lemma enter_exit_restores_context_run :
  thread_ctx
    (hip_api_callback (ext := hip) thread_a 3 7 exit_42
       (hip_api_callback (ext := hip) thread_a 3 7 enter_42 service runtime).1
       (hip_api_callback (ext := hip) thread_a 3 7 enter_42 service runtime).2).2
  = thread_ctx runtime.
Proof.
  assert (H1 : phase enter_42 = ACTIVITY_API_PHASE_ENTER (Externals := hip))
    by (vm_compute; reflexivity).
  assert (H2 : phase exit_42 ≠ ACTIVITY_API_PHASE_ENTER (Externals := hip))
    by (vm_compute; discriminate).
  pose proof (enter_exit_restores_context (ext := hip) thread_a 3 7
                enter_42 exit_42 service runtime H1 H2) as H.
  cbv zeta in H. exact (proj1 H).
Defined.

(** X10 on the run: the new service after a call and after a
    delivery. *)
Lemma counters_stay_in_range_run :
  counters_in_range
    (hip_api_callback (ext := hip) thread_a 3 7 enter_42 service runtime).1
  ∧ counters_in_range
      (rt_activity_callback (ext := hip) thread_rt [(record_42, 0)] 64
         service runtime).1.
Proof.
  assert (H : counters_in_range service)
    by apply Registration.counters_in_range_new.
  exact (counters_stay_in_range (ext := hip) thread_a 3 7 64 enter_42
           [(record_42, 0)] service runtime H).
Defined.

(** X15 on the run: the two allocators listed in both orders. *)
Lemma totals_independent_of_order_run :
  (Umpire.snapshot umpire_service allocators thread_a runtime0 channel_a
     SnapshotView_empty (FixedSizeSnapshotRecord 8)).2
  = (Umpire.snapshot umpire_service allocators_reversed thread_a runtime0
       channel_a SnapshotView_empty (FixedSizeSnapshotRecord 8)).2.
Proof.
  assert (H1 : Umpire.getAllocatorNames allocators
               ≡ₚ Umpire.getAllocatorNames allocators_reversed)
    by apply perm_swap.
  assert (H2 : ∀ name, Umpire.getAllocator allocators name
                       = Umpire.getAllocator allocators_reversed name)
    by reflexivity.
  exact (proj1 (totals_independent_of_order umpire_service allocators
                  allocators_reversed thread_a runtime0 channel_a
                  SnapshotView_empty (FixedSizeSnapshotRecord 8) H1 H2)).
Defined.

(** X16 on the run: a record with two fields of trigger info. *)
Lemma allocator_record_capacity_run :
  length
    (sv_fields
       (view (Umpire.allocator_record umpire_service "HOST"
                (Umpire.getAllocator allocators "HOST")
                (view (Umpire.snapshot_context umpire_service thread_a
                         runtime0 info_2)))))
  = 7%nat.
Proof.
  assert (H : Umpire.m_per_allocator_stats umpire_service = true)
    by (vm_compute; reflexivity).
  pose proof (allocator_record_capacity umpire_service thread_a runtime0
                info_2 "HOST" (Umpire.getAllocator allocators "HOST") H) as H0.
  cbv zeta in H0. destruct H0 as (Hle & _).
  rewrite Hle by (simpl; lia). reflexivity.
Defined.

End MoreRuns.
